(** * Grouped-frequency tables: a shallow embedding of [Untitled-1.py] and
    [ejerci.py]

    Conventions of the embedding.
    - Python [int] is [Z].
    - An exception is a value of [py_error]; a function that can raise returns
      a [result].
    - Python [float] is modelled twice.
      In the first part the class boundaries, and every number computed from
      them, are exact rationals ([Q]), and [pyfloat] adds the sentinels
      [float("nan")] and [float("inf")]: this is the arithmetic of the
      formulas, free of rounding and of overflow.  It carries the statements
      about integers, about the structure of tables and frames, and about
      the comparison of a position with the cumulative counts, which Python
      evaluates on the exact values of both sides.
      In the second part ([Doble]) a float is a binary64 value, the
      operations round as the machine does, and a number beyond the range of
      the format raises [OverflowError]: it carries every statement about the
      values that the quantile, the mean and the dispersion summary return.
    - Built-ins of the language whose result the code does not fix
      ([format(x, "g")], [sum] over floats, [x ** 2], the parsers [float] and
      [int]) are parameters of the sections that use them. *)

From Stdlib Require Import ZArith QArith Qround List String Ascii Bool Lia Lqa.
From Stdlib Require Import SpecFloat.
From Corelib Require PrimFloat FloatOps.
Import ListNotations.

Open Scope Z_scope.

(** ** Exceptions and the error monad *)

Inductive py_error : Set :=
| ZeroDivisionError
| OverflowError
| IndexError
| ValueError.

Inductive result (A : Type) : Type :=
| Ok (a : A)
| Raise (e : py_error).

Arguments Ok {A} a.
Arguments Raise {A} e.

Definition bind {A B : Type} (r : result A) (k : A -> result B) : result B :=
  match r with
  | Ok a => k a
  | Raise e => Raise e
  end.

Notation "x <- r ;; k" := (bind r (fun x => k))
  (at level 61, r at next level, right associativity).
Notation "' p <- r ;; k" := (bind r (fun p => k))
  (at level 61, p pattern, r at next level, right associativity).

(** ** Numbers in exact arithmetic *)

Inductive pyfloat : Type :=
| Num (q : Q)
| Inf (negativo : bool)
| NaN.

Definition pf_neg (x : pyfloat) : pyfloat :=
  match x with
  | Num q => Num (- q)%Q
  | Inf s => Inf (negb s)
  | NaN => NaN
  end.

(** [int / int] (true division). *)
Definition int_truediv (a b : Z) : result Q :=
  if b =? 0 then Raise ZeroDivisionError else Ok (inject_Z a / inject_Z b)%Q.

(** [float / int]. *)
Definition float_div_int (x : Q) (b : Z) : result Q :=
  if b =? 0 then Raise ZeroDivisionError else Ok (x / inject_Z b)%Q.

(** ** Lists *)

(** [l[i]] with Python's negative indices. *)
Definition py_getitem {A : Type} (l : list A) (i : Z) : result A :=
  let len := Z.of_nat (List.length l) in
  let j := if i <? 0 then i + len else i in
  if (j <? 0) || (len <=? j) then Raise IndexError
  else match nth_error l (Z.to_nat j) with
       | Some a => Ok a
       | None => Raise IndexError
       end.

(** [sum(...)] over ints: a left fold from [0]. *)
Definition py_sum_Z (l : list Z) : Z := fold_left Z.add l 0.

(** ** The data model (both files declare the same dataclass) *)

Record Clase : Type := mkClase {
  minimo : Q;
  maximo : Q;
  fi : Z
}.

(** [sum(c.fi for c in clases)]. *)
Definition total_fi (clases : list Clase) : Z := py_sum_Z (map fi clases).

(** * [Untitled-1.py] *)

Module Untitled1.

(** The properties [amplitud] and [marca] of [Clase]. *)
Definition amplitud (c : Clase) : Q := (maximo c - minimo c)%Q.

Definition marca (c : Clase) : Q := ((minimo c + maximo c) / 2)%Q.

(** A row of the table: the dict with keys ["intervalo"], ["min"], ["max"],
    ["A"], ["fi"] and ["Fi"]. *)
Record Fila : Type := mkFila {
  f_intervalo : string;
  f_min : Q;
  f_max : Q;
  f_A : Q;
  f_fi : Z;
  f_Fi : Z
}.

Section Tabla.

(** [format(x, "g")]. *)
Variable format_g : Q -> string.

(** [f"[ {c.minimo:g} , {c.maximo:g} " + ("]" if ultimo else "[")]. *)
Definition etiqueta (c : Clase) (ultimo : bool) : string :=
  ("[ " ++ format_g (minimo c) ++ " , " ++ format_g (maximo c) ++ " "
   ++ (if ultimo then "]" else "["))%string.

(** The loop of [construir_tabla]: [len] is [len(clases)], [i] the index of the
    head of [resto], [Fi] the running total before it. *)
Fixpoint construir_bucle (len : Z) (i : Z) (Fi : Z) (resto : list Clase)
  : list Fila :=
  match resto with
  | [] => []
  | c :: resto' =>
      let Fi := Fi + fi c in
      mkFila (etiqueta c (i =? len - 1)) (minimo c) (maximo c) (amplitud c)
             (fi c) Fi
      :: construir_bucle len (i + 1) Fi resto'
  end.

Definition construir_tabla (clases : list Clase) : list Fila * Z :=
  let n := total_fi clases in
  let filas := construir_bucle (Z.of_nat (List.length clases)) 0 0 clases in
  (filas, n).

End Tabla.

(** The loop of [buscar_clase_por_posicion]: [inl] is the [return] inside the
    loop, [inr Fi] the fall-through with the final running total. *)
Fixpoint buscar_bucle (posicion : Q) (i : Z) (Fi : Z) (resto : list Clase)
  : (Z * Z) + Z :=
  match resto with
  | [] => inr Fi
  | c :: resto' =>
      let previo := Fi in
      let Fi := Fi + fi c in
      if Qle_bool posicion (inject_Z Fi) then inl (i, previo)
      else buscar_bucle posicion (i + 1) Fi resto'
  end.

Definition buscar_clase_por_posicion (clases : list Clase) (posicion : Q)
  : result (Z * Z) :=
  match buscar_bucle posicion 0 0 clases with
  | inl r => Ok r
  | inr Fi =>
      c <- py_getitem clases (-1) ;;
      Ok (Z.of_nat (List.length clases) - 1, Fi - fi c)
  end.

(** [c.minimo + ((pos - Fi_1) / c.fi) * c.amplitud]. *)
Definition interpolar (c : Clase) (pos : Q) (Fi_1 : Z) : result Q :=
  frac <- float_div_int (pos - inject_Z Fi_1)%Q (fi c) ;;
  Ok (minimo c + frac * amplitud c)%Q.

Definition cuantil_agrupado (clases : list Clase) (k m : Z) : result pyfloat :=
  let n := total_fi clases in
  if n =? 0 then Ok NaN
  else
    pos <- int_truediv (k * n) m ;;
    '(i, Fi_1) <- buscar_clase_por_posicion clases pos ;;
    c <- py_getitem clases i ;;
    r <- interpolar c pos Fi_1 ;;
    Ok (Num r).

Definition mediana_agrupada (clases : list Clase) : result pyfloat :=
  cuantil_agrupado clases 2 4.

(** [max(range(len(clases)), key=lambda i: clases[i].fi)] on a non-empty list:
    the scan keeps the first index whose key is strictly greater than every
    key before it.  [mejor] is the current best index, [f_mejor] its key, [i]
    the index of the head of [resto]. *)
Fixpoint max_bucle (mejor : Z) (f_mejor : Z) (i : Z) (resto : list Clase) : Z :=
  match resto with
  | [] => mejor
  | c :: resto' =>
      if f_mejor <? fi c then max_bucle i (fi c) (i + 1) resto'
      else max_bucle mejor f_mejor (i + 1) resto'
  end.

Definition indice_modal (clases : list Clase) : result Z :=
  match clases with
  | [] => Raise ValueError
  | c :: resto => Ok (max_bucle 0 (fi c) 1 resto)
  end.

(** [None] for the empty list, otherwise a float. *)
Definition moda_agrupada (clases : list Clase) : result (option Q) :=
  match clases with
  | [] => Ok None
  | _ :: _ =>
      idx <- indice_modal clases ;;
      c <- py_getitem clases idx ;;
      f0 <- (if 0 <=? idx - 1
             then (c0 <- py_getitem clases (idx - 1) ;; Ok (fi c0))
             else Ok 0) ;;
      let f1 := fi c in
      f2 <- (if idx + 1 <? Z.of_nat (List.length clases)
             then (c2 <- py_getitem clases (idx + 1) ;; Ok (fi c2))
             else Ok 0) ;;
      let d1 := f1 - f0 in
      let d2 := f1 - f2 in
      if d1 + d2 =? 0 then Ok (Some ((minimo c + maximo c) / 2)%Q)
      else
        peso <- int_truediv d1 (d1 + d2) ;;
        Ok (Some (minimo c + peso * amplitud c)%Q)
  end.

End Untitled1.

(** * [ejerci.py] *)

Module Ejerci.

(** ** The part of pandas that [construir_tabla] relies on *)

(** The element type a [pd.Series] of Python ints takes: [int64] when every
    value fits a signed 64-bit word, [uint64] when every value fits an unsigned
    one, and otherwise [object] (the Python ints themselves). *)
Inductive dtype : Set := Int64 | UInt64 | Object.

Definition cabe_int64 (z : Z) : bool := (- 2 ^ 63 <=? z) && (z <? 2 ^ 63).

Definition cabe_uint64 (z : Z) : bool := (0 <=? z) && (z <? 2 ^ 64).

Definition inferir_dtype (l : list Z) : dtype :=
  if forallb cabe_int64 l then Int64
  else if forallb cabe_uint64 l then UInt64
  else Object.

(** Two's complement wrap-around of a signed 64-bit sum. *)
Definition wrap_int64 (z : Z) : Z := (z + 2 ^ 63) mod 2 ^ 64 - 2 ^ 63.

Definition sumar (d : dtype) (a b : Z) : Z :=
  match d with
  | Int64 => wrap_int64 (a + b)
  | UInt64 => (a + b) mod 2 ^ 64
  | Object => a + b
  end.

Fixpoint cumsum_desde (d : dtype) (acc : Z) (l : list Z) : list Z :=
  match l with
  | [] => []
  | x :: l' => let acc := sumar d acc x in acc :: cumsum_desde d acc l'
  end.

(** [pd.Series(l).cumsum().tolist()]: the running sums are computed in the
    element type of the series, so a fixed-width one wraps silently. *)
Definition pd_cumsum (l : list Z) : list Z :=
  cumsum_desde (inferir_dtype l) 0 l.

(** A cell of the frame: the TOTAL row puts [""] under numeric columns. *)
Inductive celda : Type :=
| CStr (s : string)
| CFloat (q : Q)
| CInt (z : Z).

(** The frame, column by column, in the order of the source: "Valores
    (Intervalo)", "Valor minimo", "Valor maximo", "Amplitud (A)", "Frecuencia
    absoluta (fi)", "Frecuencia acumulada (Fi)". *)
Record DataFrame : Type := mkDataFrame {
  col_intervalo : list celda;
  col_minimo : list celda;
  col_maximo : list celda;
  col_amplitud : list celda;
  col_fi : list celda;
  col_Fi : list celda
}.

(** [pd.concat([a, b], ignore_index=True)] on frames with the same columns:
    the rows of [b] after those of [a].  The cells are kept as they are: this
    is what pandas does with a column whose two parts have the same element
    type (two columns of [int64], or a column that holds text), which is the
    case of every column the statements below look at; the conversion pandas
    applies to a column whose parts differ is not modelled. *)
Definition pd_concat (a b : DataFrame) : DataFrame :=
  mkDataFrame (col_intervalo a ++ col_intervalo b)
              (col_minimo a ++ col_minimo b)
              (col_maximo a ++ col_maximo b)
              (col_amplitud a ++ col_amplitud b)
              (col_fi a ++ col_fi b)
              (col_Fi a ++ col_Fi b).

Section Tabla.

(** [format(x, "g")]. *)
Variable format_g : Q -> string.

(** The first loop of [construir_tabla]. *)
Fixpoint etiquetas_bucle (len : Z) (i : Z) (resto : list Clase) : list string :=
  match resto with
  | [] => []
  | c :: resto' =>
      (if i <? len - 1
       then ("[ " ++ format_g (minimo c) ++ " , " ++ format_g (maximo c)
             ++ " [")%string
       else ("[ " ++ format_g (minimo c) ++ " , " ++ format_g (maximo c)
             ++ " ]")%string)
      :: etiquetas_bucle len (i + 1) resto'
  end.

Definition construir_tabla (clases : list Clase) : DataFrame :=
  let etiquetas := etiquetas_bucle (Z.of_nat (List.length clases)) 0 clases in
  let amplitud := map (fun c => maximo c - minimo c)%Q clases in
  let fi_ := map fi clases in
  let Fi := pd_cumsum fi_ in
  let df :=
    mkDataFrame (map CStr etiquetas)
                (map (fun c => CFloat (minimo c)) clases)
                (map (fun c => CFloat (maximo c)) clases)
                (map CFloat amplitud)
                (map CInt fi_)
                (map CInt Fi) in
  let total :=
    mkDataFrame [CStr "TOTAL"] [CStr ""] [CStr ""] [CStr ""]
                [CInt (py_sum_Z fi_)]
                [CInt (List.last Fi 0)] in
  pd_concat df total.

End Tabla.

End Ejerci.

(** * An executable stand-in for [format(x, "g")]

    The theorems below hold for every [format_g]; this one makes the tables
    computable on concrete inputs. *)

Module Builtins.

Definition digito (d : Z) : ascii := ascii_of_nat (48 + Z.to_nat d).

Fixpoint digitos_aux (fuel : nat) (z : Z) (acc : list ascii) : list ascii :=
  match fuel with
  | O => acc
  | S fuel' =>
      let acc := digito (z mod 10) :: acc in
      if z / 10 =? 0 then acc else digitos_aux fuel' (z / 10) acc
  end.

(** The decimal digits of [z >= 0], most significant first. *)
Definition digitos (z : Z) : list ascii :=
  digitos_aux (S (Z.to_nat (Z.log2 z))) z [].

Fixpoint quitar_ceros_izq (l : list ascii) : list ascii :=
  match l with
  | "0"%char :: l' => quitar_ceros_izq l'
  | _ => l
  end.

Definition quitar_ceros_finales (l : list ascii) : list ascii :=
  rev (quitar_ceros_izq (rev l)).

(** The largest [e' <= e] with [10 ^ e' <= q], if reached within [fuel]. *)
Fixpoint exp10_desde (fuel : nat) (e : Z) (q : Q) : Z :=
  match fuel with
  | O => e
  | S fuel' =>
      if Qle_bool (10 ^ e) q then e else exp10_desde fuel' (e - 1) q
  end.

(** The decimal exponent of [q > 0]. *)
Definition exp10 (q : Q) : Z :=
  let a := Z.log2 (Qnum q) in
  let b := Z.log2 (Zpos (Qden q)) in
  exp10_desde (Z.to_nat (a + b + 2)) a q.

(** Rounding to the nearest integer, ties to even. *)
Definition redondear (x : Q) : Z :=
  let f := Qfloor x in
  match Qcompare (x - inject_Z f) (1 # 2) with
  | Lt => f
  | Gt => f + 1
  | Eq => if Z.even f then f else f + 1
  end.

Definition con_fraccion (ent frac : list ascii) : list ascii :=
  match frac with
  | [] => ent
  | _ => ent ++ "."%char :: frac
  end.

Definition exponente (e : Z) : list ascii :=
  let ds := digitos (Z.abs e) in
  "e"%char :: (if e <? 0 then "-"%char else "+"%char)
  :: (if Z.abs e <? 10 then "0"%char :: ds else ds).

(** The body of the format for [q > 0]: six significant digits, trailing
    zeros removed, exponent form when the decimal exponent is below [-4] or at
    least [6]. *)
Definition format_g_pos (q : Q) : list ascii :=
  let e0 := exp10 q in
  let m0 := redondear (q / 10 ^ (e0 - 5)) in
  let '(m, e) := if m0 =? 1000000 then (100000, e0 + 1) else (m0, e0) in
  let ds := digitos m in
  if (e <? -4) || (6 <=? e) then
    con_fraccion (firstn 1 ds) (quitar_ceros_finales (skipn 1 ds))
    ++ exponente e
  else if e <? 0 then
    con_fraccion ["0"%char]
      (quitar_ceros_finales (repeat "0"%char (Z.to_nat (- e - 1)) ++ ds))
  else
    con_fraccion (firstn (Z.to_nat (e + 1)) ds)
                 (quitar_ceros_finales (skipn (Z.to_nat (e + 1)) ds)).

Definition format_g (q : Q) : string :=
  string_of_list_ascii
    (match Qcompare q 0 with
     | Eq => ["0"%char]
     | Gt => format_g_pos q
     | Lt => "-"%char :: format_g_pos (- q)
     end).

End Builtins.

(** * The front ends

    Both programs read the classes from text.  What [float(s)] and [int(s)]
    return is a parameter: [None] stands for [ValueError].  A float read from
    text may be a sentinel, so a class as the front ends build it has
    [pyfloat] boundaries. *)

(** A [Clase] as a front end builds it. *)
Record ClaseLeida : Type := mkClaseLeida {
  l_minimo : pyfloat;
  l_maximo : pyfloat;
  l_fi : Z
}.

(** The class of the core model, when both boundaries are numbers. *)
Definition clase_numerica (c : ClaseLeida) : option Clase :=
  match l_minimo c, l_maximo c with
  | Num a, Num b => Some (mkClase a b (l_fi c))
  | _, _ => None
  end.

(** [x <= y] on floats: every comparison with not-a-number is false. *)
Definition pf_le (x y : pyfloat) : bool :=
  match x, y with
  | Num a, Num b => Qle_bool a b
  | Num _, Inf s => negb s
  | Inf s, Num _ => s
  | Inf s, Inf t => s || negb t
  | _, _ => false
  end.

(** [s.replace(",", ".")]. *)
Fixpoint reemplazar_coma (s : string) : string :=
  match s with
  | EmptyString => EmptyString
  | String c s' =>
      String (if Ascii.eqb c ","%char then "."%char else c) (reemplazar_coma s')
  end.

(** [l[i] = a] with Python's negative indices. *)
Definition py_setitem {A : Type} (l : list A) (i : Z) (a : A)
  : result (list A) :=
  let len := Z.of_nat (List.length l) in
  let j := if i <? 0 then i + len else i in
  if (j <? 0) || (len <=? j) then Raise IndexError
  else Ok (firstn (Z.to_nat j) l ++ a :: skipn (S (Z.to_nat j)) l).

(** [del l[i]] with Python's negative indices. *)
Definition py_delitem {A : Type} (l : list A) (i : Z) : result (list A) :=
  let len := Z.of_nat (List.length l) in
  let j := if i <? 0 then i + len else i in
  if (j <? 0) || (len <=? j) then Raise IndexError
  else Ok (firstn (Z.to_nat j) l ++ skipn (S (Z.to_nat j)) l).

(** ** The window of [Untitled-1.py] (class [App]) *)

Module App.

(** What [_leer_campos] does: it returns a class, or shows one of its three
    error messages and returns [None]. *)
Inductive lectura : Type :=
| Leida (c : ClaseLeida)
| ErrorNumeros
| ErrorMaximo
| ErrorFrecuencia.

Section Campos.

(** [float(s)] and [int(s)]. *)
Variable py_float : string -> option pyfloat.
Variable py_int : string -> option Z.

(** [_leer_campos], from the texts of the three entry fields. *)
Definition leer_campos (var_min var_max var_fi : string) : lectura :=
  match py_float (reemplazar_coma var_min) with
  | None => ErrorNumeros
  | Some a =>
      match py_float (reemplazar_coma var_max) with
      | None => ErrorNumeros
      | Some b =>
          match py_int var_fi with
          | None => ErrorNumeros
          | Some f =>
              if pf_le b a then ErrorMaximo
              else if f <? 0 then ErrorFrecuencia
              else Leida (mkClaseLeida a b f)
          end
      end
  end.

End Campos.

(** A value in a cell of the Treeview. *)
Inductive valor : Type :=
| VStr (s : string)
| VFloat (q : Q)
| VInt (z : Z).

(** [(f["intervalo"], f["min"], f["max"], f["A"], f["fi"], f["Fi"])]. *)
Definition valores_de_fila (f : Untitled1.Fila) : list valor :=
  [VStr (Untitled1.f_intervalo f); VFloat (Untitled1.f_min f);
   VFloat (Untitled1.f_max f); VFloat (Untitled1.f_A f);
   VInt (Untitled1.f_fi f); VInt (Untitled1.f_Fi f)].

(** [("TOTAL", "", "", "", n, n)]. *)
Definition fila_total (n : Z) : list valor :=
  [VStr "TOTAL"; VStr ""; VStr ""; VStr ""; VInt n; VInt n].

Section Arbol.

(** [format(x, "g")]. *)
Variable format_g : Q -> string.

(** [_refrescar_tabla]: the rows of the Treeview once the method returns
    (it deletes every row first, so the rows before do not matter). *)
Definition refrescar_tabla (clases : list Clase) : list (list valor) :=
  let '(filas, n) :=
    match clases with
    | [] => ([], 0)
    | _ :: _ => Untitled1.construir_tabla format_g clases
    end in
  map valores_de_fila filas ++ (if 0 <? n then [fila_total n] else []).

End Arbol.

(** The update of [self.clases] in [_agregar_clase].  [leido] is what
    [_leer_campos] returned; [seleccion] is [tree.index(sel[0])], the position
    of the first selected row among the rows of the Treeview, or [None] when
    no row is selected. *)
Definition agregar_clase {A : Type} (clases : list A) (seleccion : option Z)
  (leido : option A) : result (list A) :=
  match leido with
  | None => Ok clases
  | Some c =>
      match seleccion with
      | Some idx => py_setitem clases idx c
      | None => Ok (clases ++ [c])
      end
  end.

(** The update of [self.clases] in [_eliminar_seleccion]. *)
Definition eliminar_seleccion {A : Type} (clases : list A)
  (seleccion : option Z) : result (list A) :=
  match seleccion with
  | None => Ok clases
  | Some idx => py_delitem clases idx
  end.

(** The class [_cargar_desde_tabla] copies into the entry fields. *)
Definition cargar_desde_tabla {A : Type} (clases : list A)
  (seleccion : option Z) : result (option A) :=
  match seleccion with
  | None => Ok None
  | Some idx => c <- py_getitem clases idx ;; Ok (Some c)
  end.

End App.

(** ** The console of [ejerci.py] *)

Module Consola.

(** What a function that calls [input()] does with the lines still unread on
    standard input: it returns a value and leaves the lines it did not
    consume, or it runs out of lines ([EOFError]).  What the functions print
    is not modelled. *)
Inductive leido (A : Type) : Type :=
| Listo (a : A) (resto : list string)
| EOFError.

Arguments Listo {A} a resto.
Arguments EOFError {A}.

Definition seguir {A B : Type} (r : leido A)
  (k : A -> list string -> leido B) : leido B :=
  match r with
  | Listo a resto => k a resto
  | EOFError => EOFError
  end.

Section Entrada.

(** [float(s)], [int(s)] and [s.strip()]. *)
Variable py_float : string -> option pyfloat.
Variable py_int : string -> option Z.
Variable strip : string -> string.

(** [pedir_entero]: a line that is not an integer, or is one below [minimo],
    is answered with the error message and the next line is read. *)
Fixpoint pedir_entero (minimo : Z) (entrada : list string) : leido Z :=
  match entrada with
  | [] => EOFError
  | linea :: resto =>
      match py_int (strip linea) with
      | Some v =>
          if v <? minimo then pedir_entero minimo resto else Listo v resto
      | None => pedir_entero minimo resto
      end
  end.

Fixpoint pedir_float (entrada : list string) : leido pyfloat :=
  match entrada with
  | [] => EOFError
  | linea :: resto =>
      match py_float (strip (reemplazar_coma linea)) with
      | Some v => Listo v resto
      | None => pedir_float resto
      end
  end.

(** [while b <= a: b = pedir_float(...)].  Every turn of the loop consumes at
    least one line, so [fuel] turns are enough when [fuel] is the number of
    lines left. *)
Fixpoint repetir_maximo (fuel : nat) (a b : pyfloat) (entrada : list string)
  : leido pyfloat :=
  if pf_le b a then
    match fuel with
    | O => EOFError
    | S fuel' =>
        seguir (pedir_float entrada)
               (fun b' resto => repetir_maximo fuel' a b' resto)
    end
  else Listo b entrada.

Definition pedir_maximo (a b : pyfloat) (entrada : list string)
  : leido pyfloat :=
  repetir_maximo (List.length entrada) a b entrada.

(** The body of the [for] loop of [leer_clases], [n] times. *)
Fixpoint leer_n (n : nat) (entrada : list string) : leido (list ClaseLeida) :=
  match n with
  | O => Listo [] entrada
  | S n' =>
      seguir (pedir_float entrada) (fun a e1 =>
      seguir (pedir_float e1) (fun b e2 =>
      seguir (pedir_maximo a b e2) (fun b e3 =>
      seguir (pedir_entero 0 e3) (fun f e4 =>
      seguir (leer_n n' e4) (fun clases e5 =>
      Listo (mkClaseLeida a b f :: clases) e5)))))
  end.

Definition leer_clases (entrada : list string) : leido (list ClaseLeida) :=
  seguir (pedir_entero 1 entrada) (fun k e1 => leer_n (Z.to_nat k) e1).

End Entrada.

End Consola.

(** ** Executable stand-ins for [float], [int] and [strip]

    They cover plain decimal notation, ["nan"] and ["inf"], which is enough
    to run the front ends on concrete texts. *)

Module Lectores.

Definition es_blanco (c : ascii) : bool :=
  let n := nat_of_ascii c in
  Nat.eqb n 32 || (Nat.leb 9 n && Nat.leb n 13).

Fixpoint quitar_blancos (l : list ascii) : list ascii :=
  match l with
  | c :: l' => if es_blanco c then quitar_blancos l' else l
  | [] => []
  end.

Definition strip (s : string) : string :=
  string_of_list_ascii
    (rev (quitar_blancos (rev (quitar_blancos (list_ascii_of_string s))))).

Definition valor_digito (c : ascii) : option Z :=
  let n := nat_of_ascii c in
  if Nat.leb 48 n && Nat.leb n 57 then Some (Z.of_nat (n - 48)) else None.

(** The number written by a non-empty run of digits, after [acc]. *)
Fixpoint leer_digitos (l : list ascii) (acc : Z) : option Z :=
  match l with
  | [] => Some acc
  | c :: l' =>
      match valor_digito c with
      | Some d => leer_digitos l' (10 * acc + d)
      | None => None
      end
  end.

Definition natural (l : list ascii) : option Z :=
  match l with
  | [] => None
  | _ :: _ => leer_digitos l 0
  end.

Definition con_signo {A : Type} (leer : list ascii -> option A)
  (negar : A -> A) (l : list ascii) : option A :=
  match l with
  | "-"%char :: l' => option_map negar (leer l')
  | "+"%char :: l' => leer l'
  | _ => leer l
  end.

Definition py_int (s : string) : option Z :=
  con_signo natural Z.opp (list_ascii_of_string (strip s)).

Fixpoint partir_punto (l : list ascii) : list ascii * option (list ascii) :=
  match l with
  | [] => ([], None)
  | "."%char :: l' => ([], Some l')
  | c :: l' => let '(ent, frac) := partir_punto l' in (c :: ent, frac)
  end.

Definition decimal (l : list ascii) : option pyfloat :=
  match string_of_list_ascii l with
  | "nan"%string => Some NaN
  | "inf"%string => Some (Inf false)
  | _ =>
      match partir_punto l with
      | (ent, None) => option_map (fun z => Num (inject_Z z)) (natural ent)
      | (ent, Some frac) =>
          match leer_digitos ent 0, leer_digitos frac 0 with
          | Some e, Some f =>
              match ent, frac with
              | [], [] => None
              | _, _ =>
                  Some (Num (inject_Z e
                             + inject_Z f
                               / inject_Z (10 ^ Z.of_nat (List.length frac)))%Q)
              end
          | _, _ => None
          end
      end
  end.

Definition py_float (s : string) : option pyfloat :=
  con_signo decimal pf_neg (list_ascii_of_string (strip s)).

End Lectores.

(** * Binary floating point

    Python's [float] is IEEE 754 binary64.  [spec_float] is the Standard
    Library's description of those values (a signed zero, a signed infinity,
    NaN, or a sign with a mantissa and a binary exponent) and [SFadd],
    [SFsub], [SFmul], [SFdiv] and [SFsqrt], at precision 53 and maximal
    exponent 1024, are the operations of the format: the exact result rounded
    to the nearest value, ties to even.  This part runs the statistics of
    [Untitled-1.py] on them, with Python's conversions, comparisons and
    exceptions; it is the model behind every statement in which rounding or
    overflow has a say. *)

Definition prec : Z := 53.

Definition emax : Z := 1024.

Definition f64 : Type := spec_float.

Declare Scope f64_scope.
Delimit Scope f64_scope with f64.
Bind Scope f64_scope with f64.

Definition f64_add (x y : f64) : f64 := SFadd prec emax x y.

Definition f64_sub (x y : f64) : f64 := SFsub prec emax x y.

Definition f64_mul (x y : f64) : f64 := SFmul prec emax x y.

(** The quotient of the format: a zero divisor gives an infinity or NaN, not
    an exception. *)
Definition f64_quot (x y : f64) : f64 := SFdiv prec emax x y.

Notation "x + y" := (f64_add x y) : f64_scope.
Notation "x - y" := (f64_sub x y) : f64_scope.
Notation "x * y" := (f64_mul x y) : f64_scope.
Notation "x / y" := (f64_quot x y) : f64_scope.

(** [float("nan")] and [float("inf")]. *)
Definition f64_nan : f64 := S754_nan.

Definition f64_inf : f64 := S754_infinity false.


Definition f64_ltb (x y : f64) : bool := SFltb x y.

(** The float nearest to the integer [z]; an infinity when [z] is beyond the
    range of the format. *)
Definition f64_entero (z : Z) : f64 := binary_normalize prec emax z 0 false.

(** [float(z)], and the conversion of an int operand in mixed arithmetic: an
    integer beyond the range of the format raises. *)
Definition f64_de_int (z : Z) : result f64 :=
  match f64_entero z with
  | S754_infinity _ => Raise OverflowError
  | x => Ok x
  end.

(** An integer as an operand of the quotient: itself as mantissa, with
    exponent 0. *)
Definition f64_operando (z : Z) : f64 :=
  match z with
  | Z0 => S754_zero false
  | Zpos p => S754_finite false p 0
  | Zneg p => S754_finite true p 0
  end.

(** [a / b] on ints (true division): the exact quotient rounded once. *)
Definition f64_int_truediv (a b : Z) : result f64 :=
  if b =? 0 then Raise ZeroDivisionError
  else match (f64_operando a / f64_operando b)%f64 with
       | S754_infinity _ => Raise OverflowError
       | x => Ok x
       end.

(** The float written [m e exp] in decimal notation ([3e-1] is [0.3]). *)
Definition f64_decimal (m exp : Z) : f64 :=
  if 0 <=? exp then f64_entero (m * 10 ^ exp)
  else (f64_operando m / f64_operando (10 ^ (- exp)))%f64.

Definition f64_es_cero (x : f64) : bool :=
  match x with
  | S754_zero _ => true
  | _ => false
  end.

(** [x / y] on floats. *)
Definition f64_div (x y : f64) : result f64 :=
  if f64_es_cero y then Raise ZeroDivisionError else Ok (x / y)%f64.

(** [x - z], [x / z], [x * z] and [z * x] for a float [x] and an int [z]. *)
Definition f64_sub_int (x : f64) (z : Z) : result f64 :=
  y <- f64_de_int z ;; Ok (x - y)%f64.

Definition f64_div_int (x : f64) (z : Z) : result f64 :=
  y <- f64_de_int z ;; f64_div x y.

Definition f64_mul_int (x : f64) (z : Z) : result f64 :=
  y <- f64_de_int z ;; Ok (x * y)%f64.

Definition int_mul_f64 (z : Z) (x : f64) : result f64 :=
  y <- f64_de_int z ;; Ok (y * x)%f64.

(** The number a float stands for: [(-1)^s * m * 2^e], and 0 for the zeros.
    (It is only looked at for those.) *)
Definition f64_racional (x : f64) : Q :=
  match x with
  | S754_finite s m e => (inject_Z (if s then Zneg m else Zpos m) * 2 ^ e)%Q
  | _ => 0%Q
  end.

(** The float is a number: not NaN and not an infinity. *)
Definition f64_finito (x : f64) : bool :=
  match x with
  | S754_zero _ | S754_finite _ _ _ => true
  | _ => false
  end.

(** [x <= z], [x == z] and [x != z] for a float [x] and an int [z]: Python
    compares the exact values; NaN compares false. *)
Definition f64_le_int (x : f64) (z : Z) : bool :=
  match x with
  | S754_nan => false
  | S754_infinity s => s
  | _ => Qle_bool (f64_racional x) (inject_Z z)
  end.

Definition f64_eq_int (x : f64) (z : Z) : bool :=
  match x with
  | S754_nan | S754_infinity _ => false
  | _ => Qeq_bool (f64_racional x) (inject_Z z)
  end.

Definition f64_ne_int (x : f64) (z : Z) : bool := negb (f64_eq_int x z).

(** The square root of the format. *)
Definition f64_raiz (x : f64) : f64 := SFsqrt prec emax x.

(** [math.sqrt(x)]: a negative argument raises [ValueError]. *)
Definition f64_math_sqrt (x : f64) : result f64 :=
  if f64_ltb x (S754_zero false) then Raise ValueError
  else Ok (f64_raiz x).

(** A generator consumed in order: the first exception ends it. *)
Fixpoint para_cada {A B : Type} (f : A -> result B) (l : list A)
  : result (list B) :=
  match l with
  | [] => Ok []
  | a :: l' => b <- f a ;; bs <- para_cada f l' ;; Ok (b :: bs)
  end.

(** ** [Untitled-1.py] on binary64 *)

Module Doble.

Record Clase : Type := mkClase {
  minimo : f64;
  maximo : f64;
  fi : Z
}.

(** [sum(c.fi for c in clases)]. *)
Definition total_fi (clases : list Clase) : Z := py_sum_Z (map fi clases).

(** The properties [amplitud] and [marca] of [Clase]; the divisor of [marca]
    is the literal [2.0]. *)
Definition amplitud (c : Clase) : f64 := (maximo c - minimo c)%f64.

Definition marca (c : Clase) : f64 :=
  ((minimo c + maximo c) / f64_entero 2)%f64.

(** The loop of [buscar_clase_por_posicion], as in [Untitled1.buscar_bucle]. *)
Fixpoint buscar_bucle (posicion : f64) (i : Z) (Fi : Z) (resto : list Clase)
  : (Z * Z) + Z :=
  match resto with
  | [] => inr Fi
  | c :: resto' =>
      let previo := Fi in
      let Fi := Fi + fi c in
      if f64_le_int posicion Fi then inl (i, previo)
      else buscar_bucle posicion (i + 1) Fi resto'
  end.

Definition buscar_clase_por_posicion (clases : list Clase) (posicion : f64)
  : result (Z * Z) :=
  match buscar_bucle posicion 0 0 clases with
  | inl r => Ok r
  | inr Fi =>
      c <- py_getitem clases (-1) ;;
      Ok (Z.of_nat (List.length clases) - 1, Fi - fi c)
  end.

Definition cuantil_agrupado (clases : list Clase) (k m : Z) : result f64 :=
  let n := total_fi clases in
  if n =? 0 then Ok f64_nan
  else
    pos <- f64_int_truediv (k * n) m ;;
    '(i, Fi_1) <- buscar_clase_por_posicion clases pos ;;
    c <- py_getitem clases i ;;
    d <- f64_sub_int pos Fi_1 ;;
    frac <- f64_div_int d (fi c) ;;
    Ok (minimo c + frac * amplitud c)%f64.

Definition mediana_agrupada (clases : list Clase) : result f64 :=
  cuantil_agrupado clases 2 4.

(** The dict returned by [dispersion_agrupada]. *)
Record Dispersion : Type := mkDispersion {
  d_rango : f64;
  d_var : f64;
  d_sd : f64;
  d_IQR : f64;
  d_CV : f64
}.

Section Estadisticos.

(** [sum(...)] over a non-empty series of floats, and [x ** 2]: both are
    built-ins whose rounding the language leaves to the implementation
    ([sum] adds from left to right up to Python 3.11 and compensates the
    rounding errors from 3.12 on; [**] calls the platform's [pow] and raises
    [OverflowError] when the result is out of range). *)
Variable py_sum : list f64 -> f64.
Variable potencia2 : f64 -> result f64.

Definition media_agrupada (clases : list Clase) : result f64 :=
  let n := total_fi clases in
  if n =? 0 then Ok f64_nan
  else
    productos <- para_cada (fun c => f64_mul_int (marca c) (fi c)) clases ;;
    f64_div_int (py_sum productos) n.

Definition dispersion_agrupada (clases : list Clase) : result Dispersion :=
  let n := total_fi clases in
  if n =? 0
  then Ok (mkDispersion f64_nan f64_nan f64_nan f64_nan f64_nan)
  else
    xbar <- media_agrupada clases ;;
    terminos <- para_cada (fun c => y <- potencia2 (marca c - xbar)%f64 ;;
                                    int_mul_f64 (fi c) y) clases ;;
    let ss := py_sum terminos in
    var <- (if 1 <? n then f64_div_int ss (n - 1)
            else Ok (S754_zero false)) ;;
    sd <- f64_math_sqrt var ;;
    q1 <- cuantil_agrupado clases 1 4 ;;
    q3 <- cuantil_agrupado clases 3 4 ;;
    ultima <- py_getitem clases (-1) ;;
    primera <- py_getitem clases 0 ;;
    cv <- (if f64_ne_int xbar 0
           then (r <- f64_div sd xbar ;; Ok (r * f64_entero 100)%f64)
           else Ok f64_inf) ;;
    Ok (mkDispersion (maximo ultima - minimo primera)%f64 var sd
                     (q3 - q1)%f64 cv).

End Estadisticos.

End Doble.

(** Executable stand-ins for [sum] and [** 2] on floats: the sum from left to
    right starting at [0.0], and the rounded product [x * x], out of range
    when it is infinite for a finite [x]. *)
Module BuiltinsDoble.

Definition py_sum (l : list f64) : f64 :=
  fold_left f64_add l (S754_zero false).

Definition potencia2 (x : f64) : result f64 :=
  match x, (x * x)%f64 with
  | S754_finite _ _ _, S754_infinity _ => Raise OverflowError
  | _, y => Ok y
  end.

End BuiltinsDoble.

(** * Specification vocabulary *)

(** The sum of a list of integers, by recursion on the list. *)
Fixpoint suma (l : list Z) : Z :=
  match l with
  | [] => 0
  | x :: l' => x + suma l'
  end.

(** The cumulative frequency of class [i]: the frequencies of the classes
    [0 .. i], inclusive. *)
Definition acumulada (clases : list Clase) (i : nat) : Z :=
  suma (map fi (firstn (S i) clases)).

(** The cumulative frequency of the classes strictly before class [i]. *)
Definition acumulada_antes (clases : list Clase) (i : nat) : Z :=
  suma (map fi (firstn i clases)).

(** Every frequency is non-negative (the invariant of the data model, which
    both front ends check before a class is stored). *)
Definition frecuencias_validas (clases : list Clase) : Prop :=
  Forall (fun c => 0 <= fi c) clases.


(** The label of a class: right-open, except for the last class of the table,
    which is closed. *)
Definition etiqueta_esperada (format_g : Q -> string) (c : Clase)
  (ultima : bool) : string :=
  if ultima
  then ("[ " ++ format_g (minimo c) ++ " , " ++ format_g (maximo c)
        ++ " ]")%string
  else ("[ " ++ format_g (minimo c) ++ " , " ++ format_g (maximo c)
        ++ " [")%string.

(** Whether [i] is the index of the last element of [l]. *)
Definition es_ultima {A : Type} (l : list A) (i : nat) : bool :=
  Nat.eqb (S i) (List.length l).





(** The target position of the quantile [k/m] of [n] observations. *)
Definition posicion_cuantil (k n m : Z) : Q :=
  (inject_Z (k * n) / inject_Z m)%Q.

(** Two floats that denote the same number, or the same sentinel. *)
Definition pf_equiv (x y : pyfloat) : Prop :=
  match x, y with
  | Num a, Num b => (a == b)%Q
  | Inf s, Inf t => s = t
  | NaN, NaN => True
  | _, _ => False
  end.

(** Two outcomes of a float computation that agree: the same exception, or
    floats that denote the same value. *)
Definition resultado_equiv (r r' : result pyfloat) : Prop :=
  match r, r' with
  | Ok x, Ok y => pf_equiv x y
  | Raise e, Raise e' => e = e'
  | _, _ => False
  end.

(** A class read by a front end passed its checks: the frequency is not
    negative and the maximum is not [<=] the minimum. *)
Definition clase_leida_valida (c : ClaseLeida) : Prop :=
  0 <= l_fi c /\ pf_le (l_maximo c) (l_minimo c) = false.

(** A line that [pedir_entero] answers with its error message: [leer] is what
    [int] makes of the line. *)
Definition entero_rechazado (leer : string -> option Z) (minimo : Z)
  (linea : string) : Prop :=
  match leer linea with
  | Some v => v < minimo
  | None => True
  end.

(** ** Vocabulary of the binary64 statistics *)

(** The frequencies of a class sequence and their running totals: up to and
    including class [i], and strictly before it. *)
Definition frecuencias (clases : list Doble.Clase) : list Z :=
  map Doble.fi clases.


Definition frecuencia_antes (clases : list Doble.Clase) (i : nat) : Z :=
  suma (firstn i (frecuencias clases)).

(** The class with the same frequency whose boundaries are the numbers that
    the floats stand for. *)
Definition exacta (c : Doble.Clase) : Clase :=
  mkClase (f64_racional (Doble.minimo c)) (f64_racional (Doble.maximo c))
          (Doble.fi c).



(** The midpoint of a class. *)
Definition punto_medio (c : Doble.Clase) : f64 :=
  ((Doble.minimo c + Doble.maximo c) / f64_entero 2)%f64.

Section MomentosEsperados.

Variable py_sum : list f64 -> f64.
Variable potencia2 : f64 -> result f64.

(** The mean of grouped data, [sum(midpoint_i * fi_i) / n]; it has no value
    when a count is beyond the range of the floats. *)
Definition media_esperada (clases : list Doble.Clase) : result f64 :=
  productos <- para_cada (fun c => f <- f64_de_int (Doble.fi c) ;;
                                   Ok (punto_medio c * f)%f64) clases ;;
  n <- f64_de_int (suma (frecuencias clases)) ;;
  Ok (py_sum productos / n)%f64.

(** The sum of squares around [mean], [sum(fi_i * (midpoint_i - mean)^2)];
    it has no value when a square or a count is beyond the range of the
    floats. *)
Definition suma_cuadrados_esperada (clases : list Doble.Clase) (mean : f64)
  : result f64 :=
  terminos <- para_cada (fun c => y <- potencia2 (punto_medio c - mean)%f64 ;;
                                  f <- f64_de_int (Doble.fi c) ;;
                                  Ok (f * y)%f64) clases ;;
  Ok (py_sum terminos).

(** The sample variance around [mean]: the sum of squares divided by
    [n - 1] when [n > 1], and [0.0] otherwise. *)
Definition varianza_esperada (clases : list Doble.Clase) (mean : f64)
  : result f64 :=
  let n := suma (frecuencias clases) in
  ss <- suma_cuadrados_esperada clases mean ;;
  if 1 <? n
  then d <- f64_de_int (n - 1) ;; Ok (ss / d)%f64
  else Ok (S754_zero false).

End MomentosEsperados.

(** ** Sample tables *)

(** The five classes of the worked example: totals 2, 7, 15, 19, 20. *)
Definition tabla_ejemplo : list Clase :=
  [mkClase 20 25 2; mkClase 25 30 5; mkClase 30 35 8; mkClase 35 40 4;
   mkClase 40 45 1].

(** A table whose last class is empty. *)
Definition tabla_ultima_vacia : list Clase :=
  [mkClase 0 10 5; mkClase 10 20 0].

(** A table whose intervals are not in ascending order. *)
Definition tabla_desordenada : list Clase :=
  [mkClase 100 110 1; mkClase 0 10 1].

(** Two classes whose frequencies add up to [2 ^ 63]. *)
Definition tabla_enorme : list Clase :=
  [mkClase 0 10 (2 ^ 62); mkClase 10 20 (2 ^ 62)].

(** ** Sample tables with binary64 boundaries *)

(** A class whose boundaries are integers. *)
Definition clase_entera (a b f : Z) : Doble.Clase :=
  Doble.mkClase (f64_entero a) (f64_entero b) f.

(** The five classes of the worked example. *)
Definition tabla_ejemplo_doble : list Doble.Clase :=
  [clase_entera 20 25 2; clase_entera 25 30 5; clase_entera 30 35 8;
   clase_entera 35 40 4; clase_entera 40 45 1].



(** Tables whose last, or first, class is empty. *)
Definition tabla_ultima_vacia_doble : list Doble.Clase :=
  [clase_entera 0 10 5; clase_entera 10 20 0].

Definition tabla_primera_vacia : list Doble.Clase :=
  [clase_entera 0 10 0; clase_entera 10 20 5].

(** A first class of [2 ^ 53 + 3] observations, which no float equals,
    followed by an empty class. *)
Definition tabla_inexacta : list Doble.Clase :=
  [clase_entera 0 10 (2 ^ 53 + 3); clase_entera 10 20 0].

(** A class with more observations than the largest float. *)
Definition tabla_desbordada : list Doble.Clase :=
  [clase_entera 0 10 (2 ^ 1024)].


(** A single class without observations. *)
Definition tabla_sin_datos : list Doble.Clase := [clase_entera 0 10 0].


(** * Sums and prefixes *)

Lemma fold_left_add_suma (l : list Z) (a : Z) :
  fold_left Z.add l a = a + suma l.
Proof.
  revert a; induction l as [|x l IH]; intros a; simpl.
  - lia.
  - rewrite IH. lia.
Qed.

Lemma py_sum_Z_suma (l : list Z) : py_sum_Z l = suma l.
Proof. unfold py_sum_Z. rewrite fold_left_add_suma. lia. Qed.

Lemma total_fi_suma (clases : list Clase) :
  total_fi clases = suma (map fi clases).
Proof. apply py_sum_Z_suma. Qed.

Lemma suma_app (l1 l2 : list Z) : suma (l1 ++ l2) = suma l1 + suma l2.
Proof. induction l1 as [|x l1 IH]; simpl; lia. Qed.

Lemma acumulada_cons (c : Clase) (clases : list Clase) (i : nat) :
  acumulada (c :: clases) (S i) = fi c + acumulada clases i.
Proof. reflexivity. Qed.

Lemma acumulada_antes_cons (c : Clase) (clases : list Clase) (i : nat) :
  acumulada_antes (c :: clases) (S i) = fi c + acumulada_antes clases i.
Proof. reflexivity. Qed.

Lemma acumulada_paso (clases : list Clase) (i : nat) (c : Clase) :
  nth_error clases i = Some c ->
  acumulada clases i = acumulada_antes clases i + fi c.
Proof.
  revert i; induction clases as [|c0 clases IH]; intros [|i] H; simpl in H;
    try discriminate.
  - injection H as ->. unfold acumulada, acumulada_antes. simpl. lia.
  - rewrite acumulada_cons, acumulada_antes_cons, (IH i H). lia.
Qed.

Lemma acumulada_antes_S (clases : list Clase) (i : nat) :
  acumulada_antes clases (S i) = acumulada clases i.
Proof. reflexivity. Qed.

Lemma acumulada_antes_total (clases : list Clase) :
  acumulada_antes clases (List.length clases) = suma (map fi clases).
Proof. unfold acumulada_antes. now rewrite firstn_all. Qed.

Lemma acumulada_ultima (clases : list Clase) :
  clases <> [] ->
  acumulada clases (List.length clases - 1) = suma (map fi clases).
Proof.
  intros H. destruct clases as [|c clases]; [contradiction|].
  unfold acumulada. simpl List.length.
  replace (S (S (List.length clases) - 1)) with (List.length (c :: clases))
    by (simpl; lia).
  now rewrite firstn_all.
Qed.

Lemma suma_nonneg (clases : list Clase) :
  frecuencias_validas clases -> 0 <= suma (map fi clases).
Proof. induction 1; simpl; lia. Qed.

Lemma validas_firstn (clases : list Clase) (i : nat) :
  frecuencias_validas clases -> frecuencias_validas (firstn i clases).
Proof.
  intros H. revert i. induction H as [|c l Hc Hl IH]; intros [|i]; simpl;
    try constructor; auto.
  apply IH.
Qed.

Lemma acumulada_antes_mono (clases : list Clase) (i j : nat) :
  frecuencias_validas clases -> (i <= j)%nat ->
  acumulada_antes clases i <= acumulada_antes clases j.
Proof.
  intros H. revert i j.
  induction H as [|c l Hc Hl IH]; intros i j Hij.
  - unfold acumulada_antes. rewrite !firstn_nil. lia.
  - destruct i as [|i]; destruct j as [|j]; try lia.
    + unfold acumulada_antes at 1. simpl firstn. simpl suma.
      rewrite acumulada_antes_cons.
      pose proof (suma_nonneg _ (validas_firstn l j Hl)) as Hp.
      unfold acumulada_antes. lia.
    + rewrite !acumulada_antes_cons. specialize (IH i j). lia.
Qed.


(** * The position locator *)

Lemma firstn_medio {A : Type} (pre : list A) (c : A) (resto : list A) :
  firstn (S (List.length pre)) (pre ++ c :: resto) = pre ++ [c].
Proof.
  replace (pre ++ c :: resto) with ((pre ++ [c]) ++ resto)
    by (now rewrite <- app_assoc).
  replace (S (List.length pre)) with (List.length (pre ++ [c]) + 0)%nat
    by (rewrite length_app; simpl; lia).
  rewrite firstn_app_2. simpl. now rewrite app_nil_r.
Qed.

Lemma acumulada_medio (pre : list Clase) (c : Clase) (resto : list Clase) :
  acumulada (pre ++ c :: resto) (List.length pre) = suma (map fi pre) + fi c.
Proof.
  unfold acumulada. rewrite firstn_medio, map_app, suma_app. simpl. lia.
Qed.

Lemma acumulada_antes_medio (pre resto : list Clase) :
  acumulada_antes (pre ++ resto) (List.length pre) = suma (map fi pre).
Proof.
  unfold acumulada_antes.
  replace (List.length pre) with (List.length pre + 0)%nat by lia.
  rewrite firstn_app_2. simpl. now rewrite app_nil_r.
Qed.

(** The invariant of the scan: started after the prefix [pre] with its total,
    the loop either stops at the first index whose cumulative frequency
    reaches [p], or falls through with the grand total. *)
Lemma buscar_bucle_spec (p : Q) (resto pre : list Clase) :
  match Untitled1.buscar_bucle p (Z.of_nat (List.length pre))
                               (suma (map fi pre)) resto with
  | inl (i, previo) =>
      exists j : nat,
        (List.length pre <= j < List.length (pre ++ resto))%nat /\
        i = Z.of_nat j /\
        previo = acumulada_antes (pre ++ resto) j /\
        (p <= inject_Z (acumulada (pre ++ resto) j))%Q /\
        forall j' : nat, (List.length pre <= j' < j)%nat ->
                         ~ (p <= inject_Z (acumulada (pre ++ resto) j'))%Q
  | inr F =>
      F = suma (map fi (pre ++ resto)) /\
      forall j' : nat,
        (List.length pre <= j' < List.length (pre ++ resto))%nat ->
        ~ (p <= inject_Z (acumulada (pre ++ resto) j'))%Q
  end.
Proof.
  revert pre; induction resto as [|c resto IH]; intros pre; simpl.
  - rewrite app_nil_r. split; [reflexivity|]. intros j' Hj'. lia.
  - destruct (Qle_bool p (inject_Z (suma (map fi pre) + fi c))) eqn:Hle.
    + exists (List.length pre). rewrite length_app. simpl.
      repeat split; try lia.
      * now rewrite acumulada_antes_medio.
      * rewrite acumulada_medio. now apply Qle_bool_iff.
    + specialize (IH (pre ++ [c])).
      assert (Hnot : ~ (p <= inject_Z (acumulada (pre ++ c :: resto)
                                                 (List.length pre)))%Q).
      { rewrite acumulada_medio. intros Hp.
        apply Qle_bool_iff in Hp. congruence. }
      replace (Z.of_nat (List.length (pre ++ [c])))
        with (Z.of_nat (List.length pre) + 1) in IH
        by (rewrite length_app; simpl; lia).
      replace (suma (map fi (pre ++ [c])))
        with (suma (map fi pre) + fi c) in IH
        by (rewrite map_app, suma_app; simpl; lia).
      replace ((pre ++ [c]) ++ resto) with (pre ++ c :: resto) in IH
        by (now rewrite <- app_assoc).
      destruct (Untitled1.buscar_bucle p (Z.of_nat (List.length pre) + 1)
                  (suma (map fi pre) + fi c) resto) as [[i previo]|F].
      * destruct IH as (j & Hj & Hi & Hprev & Hp & Hfirst).
        rewrite length_app in Hj. simpl in Hj.
        exists j. repeat split; auto; try lia.
        intros j' Hj'.
        destruct (Nat.eq_dec j' (List.length pre)) as [->|Hne]; [exact Hnot|].
        apply Hfirst. rewrite length_app. simpl. lia.
      * destruct IH as (HF & Hnone). split; [exact HF|].
        intros j' Hj'.
        destruct (Nat.eq_dec j' (List.length pre)) as [->|Hne]; [exact Hnot|].
        apply Hnone. rewrite length_app. simpl. lia.
Qed.

Lemma py_getitem_ultimo {A : Type} (ini : list A) (ult : A) :
  py_getitem (ini ++ [ult]) (-1) = Ok ult.
Proof.
  unfold py_getitem. rewrite length_app. simpl List.length.
  replace (-1 <? 0) with true by reflexivity.
  replace (-1 + Z.of_nat (List.length ini + 1))
    with (Z.of_nat (List.length ini)) by lia.
  destruct (Z.ltb_spec (Z.of_nat (List.length ini)) 0) as [Hneg|_]; [lia|].
  destruct (Z.leb_spec (Z.of_nat (List.length ini + 1))
                       (Z.of_nat (List.length ini))) as [Hle|_]; [lia|].
  simpl. rewrite Nat2Z.id, nth_error_app2 by lia.
  now rewrite Nat.sub_diag.
Qed.

Lemma py_getitem_nat {A : Type} (l : list A) (i : nat) (a : A) :
  nth_error l i = Some a -> py_getitem l (Z.of_nat i) = Ok a.
Proof.
  intros H. unfold py_getitem.
  assert (Hlt : (i < List.length l)%nat)
    by (apply nth_error_Some; congruence).
  destruct (Z.ltb_spec (Z.of_nat i) 0) as [Hneg|_]; [lia|].
  destruct (Z.ltb_spec (Z.of_nat i) 0) as [Hneg|_]; [lia|].
  destruct (Z.leb_spec (Z.of_nat (List.length l)) (Z.of_nat i)) as [Hle|_];
    [lia|].
  simpl. now rewrite Nat2Z.id, H.
Qed.

Lemma no_vacia_ultimo {A : Type} (l : list A) :
  l <> [] -> exists ini ult, l = ini ++ [ult].
Proof.
  intros H. destruct (exists_last H) as (ini & ult & ->). eauto.
Qed.

(** What the locator returns, in terms of cumulative frequencies. *)
Lemma buscar_caracterizacion (clases : list Clase) (p : Q) :
  clases <> [] ->
  (exists i : nat,
      (i < List.length clases)%nat /\
      (p <= inject_Z (acumulada clases i))%Q /\
      (forall j : nat, (j < i)%nat -> ~ (p <= inject_Z (acumulada clases j))%Q) /\
      Untitled1.buscar_clase_por_posicion clases p
      = Ok (Z.of_nat i, acumulada_antes clases i))
  \/
  (exists (ini : list Clase) (ult : Clase),
      clases = ini ++ [ult] /\
      (forall j : nat, (j < List.length clases)%nat ->
                       ~ (p <= inject_Z (acumulada clases j))%Q) /\
      Untitled1.buscar_clase_por_posicion clases p
      = Ok (Z.of_nat (List.length clases) - 1, suma (map fi clases) - fi ult)).
Proof.
  intros Hne. unfold Untitled1.buscar_clase_por_posicion.
  pose proof (buscar_bucle_spec p clases []) as H. simpl in H.
  destruct (Untitled1.buscar_bucle p 0 0 clases) as [[i previo]|F].
  - left. destruct H as (j & Hj & -> & -> & Hp & Hfirst).
    exists j. repeat split; auto; try lia.
    intros j' Hj'. apply Hfirst. lia.
  - right. destruct H as (-> & Hnone).
    destruct (no_vacia_ultimo clases Hne) as (ini & ult & Heq).
    exists ini, ult. split; [exact Heq|]. split.
    + intros j Hj. apply Hnone. lia.
    + rewrite Heq at 1. rewrite py_getitem_ultimo. reflexivity.
Qed.

(** ** C2 *)

(** C2.  For a non-empty class sequence and any position [p], the locator
    returns the first index whose cumulative frequency reaches or exceeds [p],
    paired with the cumulative frequency of the classes strictly before it;
    when no class reaches [p] it returns the last index, paired with the total
    minus the frequency of the last class. *)
Theorem buscar_clase_por_posicion_primera (clases : list Clase) (p : Q) :
  clases <> [] ->
  (exists i : nat,
      (i < List.length clases)%nat /\
      (p <= inject_Z (acumulada clases i))%Q /\
      (forall j : nat, (j < i)%nat -> ~ (p <= inject_Z (acumulada clases j))%Q) /\
      Untitled1.buscar_clase_por_posicion clases p
      = Ok (Z.of_nat i, acumulada_antes clases i))
  \/
  (exists (ini : list Clase) (ult : Clase),
      clases = ini ++ [ult] /\
      (forall j : nat, (j < List.length clases)%nat ->
                       ~ (p <= inject_Z (acumulada clases j))%Q) /\
      Untitled1.buscar_clase_por_posicion clases p
      = Ok (Z.of_nat (List.length clases) - 1, total_fi clases - fi ult)).
Proof.
  intros Hne. rewrite total_fi_suma. now apply buscar_caracterizacion.
Qed.

Lemma buscar_clase_por_posicion_primera_ejemplo :
  tabla_ejemplo <> [] /\
  ((exists i : nat,
       (i < List.length tabla_ejemplo)%nat /\
       (10 <= inject_Z (acumulada tabla_ejemplo i))%Q /\
       (forall j : nat, (j < i)%nat ->
          ~ (10 <= inject_Z (acumulada tabla_ejemplo j))%Q) /\
       Untitled1.buscar_clase_por_posicion tabla_ejemplo 10
       = Ok (Z.of_nat i, acumulada_antes tabla_ejemplo i))
   \/
   (exists (ini : list Clase) (ult : Clase),
       tabla_ejemplo = ini ++ [ult] /\
       (forall j : nat, (j < List.length tabla_ejemplo)%nat ->
          ~ (10 <= inject_Z (acumulada tabla_ejemplo j))%Q) /\
       Untitled1.buscar_clase_por_posicion tabla_ejemplo 10
       = Ok (Z.of_nat (List.length tabla_ejemplo) - 1,
             total_fi tabla_ejemplo - fi ult))).
Proof.
  split; [discriminate|].
  apply (buscar_clase_por_posicion_primera tabla_ejemplo 10).
  discriminate.
Defined.

(** * The quantile *)

Lemma total_no_vacia (clases : list Clase) :
  total_fi clases <> 0 -> clases <> [].
Proof. intros H ->. now apply H. Qed.

(** On a non-empty sequence the locator always answers with an index of the
    sequence and the cumulative frequency before it. *)
Lemma buscar_ok (clases : list Clase) (p : Q) :
  clases <> [] ->
  exists (i : nat) (c : Clase),
    nth_error clases i = Some c /\
    Untitled1.buscar_clase_por_posicion clases p
    = Ok (Z.of_nat i, acumulada_antes clases i).
Proof.
  intros Hne.
  destruct (buscar_caracterizacion clases p Hne)
    as [(i & Hi & _ & _ & Hb) | (ini & ult & Heq & _ & Hb)].
  - destruct (nth_error clases i) as [c|] eqn:Hc.
    + now exists i, c.
    + apply nth_error_None in Hc. lia.
  - exists (List.length ini), ult. split.
    + rewrite Heq, nth_error_app2 by lia. now rewrite Nat.sub_diag.
    + rewrite Hb. f_equal. f_equal.
      * rewrite Heq, length_app. simpl. lia.
      * rewrite Heq at 2. rewrite acumulada_antes_medio.
        rewrite Heq, map_app, suma_app. simpl. lia.
Qed.

(** The quantile once the locator has answered. *)
Lemma cuantil_desplegado (clases : list Clase) (k m : Z) (i : nat) (c : Clase) :
  total_fi clases <> 0 -> m <> 0 ->
  nth_error clases i = Some c ->
  Untitled1.buscar_clase_por_posicion clases
    (posicion_cuantil k (total_fi clases) m)
  = Ok (Z.of_nat i, acumulada_antes clases i) ->
  Untitled1.cuantil_agrupado clases k m
  = if fi c =? 0 then Raise ZeroDivisionError
    else Ok (Num (minimo c
                  + ((posicion_cuantil k (total_fi clases) m
                      - inject_Z (acumulada_antes clases i))
                     / inject_Z (fi c))
                    * Untitled1.amplitud c)%Q).
Proof.
  intros Hn Hm Hc Hb. unfold posicion_cuantil in *.
  unfold Untitled1.cuantil_agrupado.
  destruct (Z.eqb_spec (total_fi clases) 0) as [H0|_]; [contradiction|].
  unfold int_truediv.
  destruct (Z.eqb_spec m 0) as [H0|_]; [contradiction|].
  cbn [bind]. rewrite Hb. cbn [bind].
  rewrite (py_getitem_nat _ _ _ Hc). cbn [bind].
  unfold Untitled1.interpolar, float_div_int.
  destruct (fi c =? 0); reflexivity.
Qed.

(** ** Positions inside the table *)





(** A position in [(0, n]] is located in a class that holds observations:
    the cumulative frequency before the class is below the position and the
    cumulative frequency of the class reaches it. *)
Lemma buscar_en_rango (clases : list Clase) (p : Q) :
  (0 < p)%Q -> (p <= inject_Z (suma (map fi clases)))%Q ->
  exists (i : nat) (c : Clase),
    nth_error clases i = Some c /\
    Untitled1.buscar_clase_por_posicion clases p
    = Ok (Z.of_nat i, acumulada_antes clases i) /\
    (inject_Z (acumulada_antes clases i) < p)%Q /\
    (p <= inject_Z (acumulada clases i))%Q /\
    (forall j : nat, (j < i)%nat -> ~ (p <= inject_Z (acumulada clases j))%Q) /\
    0 < fi c.
Proof.
  intros Hpos Htot.
  assert (Hne : clases <> []).
  { intros ->. simpl in Htot. apply (Qlt_irrefl 0). eapply Qlt_le_trans; eauto. }
  destruct (buscar_caracterizacion clases p Hne)
    as [(i & Hi & Hp & Hfirst & Hb) | (ini & ult & Heq & Hnone & _)].
  - destruct (nth_error clases i) as [c|] eqn:Hc;
      [|apply nth_error_None in Hc; lia].
    assert (Hantes : (inject_Z (acumulada_antes clases i) < p)%Q).
    { destruct i as [|i'].
      - exact Hpos.
      - rewrite acumulada_antes_S. apply Qnot_le_lt. apply Hfirst. lia. }
    exists i, c. repeat split; auto.
    pose proof (acumulada_paso clases i c Hc) as Hpaso.
    assert (Hlt : (inject_Z (acumulada_antes clases i)
                   < inject_Z (acumulada clases i))%Q)
      by (eapply Qlt_le_trans; eauto).
    rewrite <- Zlt_Qlt in Hlt. lia.
  - exfalso. apply (Hnone (List.length clases - 1)%nat).
    + destruct clases; [contradiction|simpl; lia].
    + now rewrite acumulada_ultima.
Qed.


(** ** C8 *)

(** When the located class is empty the interpolation divides by zero and the
    quantile raises. *)
Lemma cuantil_clase_vacia (clases : list Clase) (k m : Z) (i : nat) (c : Clase) :
  total_fi clases <> 0 -> m <> 0 ->
  Untitled1.buscar_clase_por_posicion clases
    (posicion_cuantil k (total_fi clases) m)
  = Ok (Z.of_nat i, acumulada_antes clases i) ->
  nth_error clases i = Some c ->
  fi c = 0 ->
  Untitled1.cuantil_agrupado clases k m = Raise ZeroDivisionError.
Proof.
  intros Hn Hm Hb Hc Hfi.
  rewrite (cuantil_desplegado clases k m i c Hn Hm Hc Hb).
  now rewrite Hfi.
Qed.

(** C8.  The quantile [5/4] of a table whose last class is empty: the position
    6.25 exceeds the total 5, the locator falls back to the last class, whose
    frequency is 0, and the call ends in [ZeroDivisionError] instead of an
    undefined result. *)
Theorem cuantil_agrupado_division_por_cero :
  Untitled1.cuantil_agrupado tabla_ultima_vacia 5 4 = Raise ZeroDivisionError.
Proof.
  apply (cuantil_clase_vacia tabla_ultima_vacia 5 4 1 (mkClase 10 20 0));
    try reflexivity; discriminate.
Qed.


(** * Monotonicity of the quartiles *)









(** * The table builder of [Untitled-1.py] *)

Section TablaUntitled1.

Variable format_g : Q -> string.

Lemma etiqueta_es_esperada (c : Clase) (ultima : bool) :
  Untitled1.etiqueta format_g c ultima = etiqueta_esperada format_g c ultima.
Proof. destruct ultima; reflexivity. Qed.

(** The invariant of the loop: started after the prefix [pre] with its total,
    the loop emits for the [j]-th remaining class the row of index
    [length pre + j] of the whole table. *)
Lemma construir_bucle_fila (resto pre : list Clase) (j : nat) (c : Clase) :
  nth_error resto j = Some c ->
  nth_error
    (Untitled1.construir_bucle format_g
       (Z.of_nat (List.length (pre ++ resto)))
       (Z.of_nat (List.length pre)) (suma (map fi pre)) resto) j
  = Some (Untitled1.mkFila
            (etiqueta_esperada format_g c
               (es_ultima (pre ++ resto) (List.length pre + j)))
            (minimo c) (maximo c) (maximo c - minimo c)%Q (fi c)
            (acumulada (pre ++ resto) (List.length pre + j))).
Proof.
  revert pre j; induction resto as [|c0 resto IH]; intros pre j Hc.
  - destruct j; discriminate.
  - destruct j as [|j]; simpl in Hc.
    + injection Hc as ->. simpl. rewrite Nat.add_0_r.
      rewrite etiqueta_es_esperada, acumulada_medio. f_equal. f_equal.
      unfold es_ultima.
      destruct (Z.eqb_spec (Z.of_nat (List.length pre))
                           (Z.of_nat (List.length (pre ++ c :: resto)) - 1));
        destruct (Nat.eqb_spec (S (List.length pre))
                               (List.length (pre ++ c :: resto)));
        try reflexivity; lia.
    + specialize (IH (pre ++ [c0]) j Hc).
      replace ((pre ++ [c0]) ++ resto) with (pre ++ c0 :: resto) in IH
        by (now rewrite <- app_assoc).
      replace (Z.of_nat (List.length (pre ++ [c0])))
        with (Z.of_nat (List.length pre) + 1) in IH
        by (rewrite length_app; simpl; lia).
      replace (suma (map fi (pre ++ [c0])))
        with (suma (map fi pre) + fi c0) in IH
        by (rewrite map_app, suma_app; simpl; lia).
      replace (List.length (pre ++ [c0]) + j)%nat
        with (List.length pre + S j)%nat in IH
        by (rewrite length_app; simpl; lia).
      simpl. exact IH.
Qed.

Lemma construir_bucle_length (resto : list Clase) (len i Fi : Z) :
  List.length (Untitled1.construir_bucle format_g len i Fi resto)
  = List.length resto.
Proof.
  revert i Fi; induction resto as [|c resto IH]; intros i Fi; simpl; auto.
Qed.

(** C3.  [construir_tabla] returns one row per class, in order: row [i]
    carries the boundaries, width and frequency of class [i], the cumulative
    frequency of the classes [0 .. i], and the label ["[ min , max ["], or
    ["[ min , max ]"] for the last row, with the numbers in [g] format; the
    total is the sum of the frequencies; the empty sequence gives no rows and
    total 0. *)
Theorem construir_tabla_filas (clases : list Clase) :
  List.length (fst (Untitled1.construir_tabla format_g clases))
  = List.length clases /\
  (forall (i : nat) (c : Clase),
      nth_error clases i = Some c ->
      nth_error (fst (Untitled1.construir_tabla format_g clases)) i
      = Some (Untitled1.mkFila
                (etiqueta_esperada format_g c (es_ultima clases i))
                (minimo c) (maximo c) (maximo c - minimo c)%Q (fi c)
                (acumulada clases i))) /\
  snd (Untitled1.construir_tabla format_g clases) = suma (map fi clases) /\
  Untitled1.construir_tabla format_g [] = ([], 0).
Proof.
  unfold Untitled1.construir_tabla. cbn [fst snd].
  split; [apply construir_bucle_length|].
  split; [|split; [apply total_fi_suma|reflexivity]].
  intros i c Hc. exact (construir_bucle_fila clases [] i c Hc).
Qed.

End TablaUntitled1.

Lemma construir_tabla_filas_ejemplo :
  List.length (fst (Untitled1.construir_tabla Builtins.format_g tabla_ejemplo))
  = List.length tabla_ejemplo /\
  nth_error (fst (Untitled1.construir_tabla Builtins.format_g tabla_ejemplo)) 4
  = Some (Untitled1.mkFila "[ 40 , 45 ]" 40 45 (45 - 40)%Q 1 20) /\
  snd (Untitled1.construir_tabla Builtins.format_g tabla_ejemplo) = 20.
Proof.
  destruct (construir_tabla_filas Builtins.format_g tabla_ejemplo)
    as (Hlen & Hfila & Hn & _).
  split; [exact Hlen|]. split; [|exact Hn].
  exact (Hfila 4%nat (mkClase 40 45 1) eq_refl).
Defined.

(** * The mode *)





Lemma py_getitem_primero {A : Type} (a : A) (l : list A) :
  py_getitem (a :: l) 0 = Ok a.
Proof. exact (py_getitem_nat (a :: l) 0 a eq_refl). Qed.

(** * The two table builders *)

Lemma wrap_int64_id (z : Z) : - 2 ^ 63 <= z < 2 ^ 63 -> Ejerci.wrap_int64 z = z.
Proof.
  intros H. unfold Ejerci.wrap_int64. rewrite Z.mod_small; lia.
Qed.

Lemma fi_le_suma (clases : list Clase) (c : Clase) :
  frecuencias_validas clases -> In c clases -> fi c <= suma (map fi clases).
Proof.
  induction 1 as [|c0 l Hc0 Hl IH]; intros Hin; [contradiction|].
  simpl. pose proof (suma_nonneg l Hl). destruct Hin as [->|Hin]; [lia|].
  specialize (IH Hin). lia.
Qed.

Lemma inferir_dtype_int64 (clases : list Clase) :
  frecuencias_validas clases -> suma (map fi clases) < 2 ^ 63 ->
  Ejerci.inferir_dtype (map fi clases) = Ejerci.Int64.
Proof.
  intros Hv Hn. unfold Ejerci.inferir_dtype.
  replace (forallb Ejerci.cabe_int64 (map fi clases)) with true; [reflexivity|].
  symmetry. apply forallb_forall. intros z Hz.
  apply in_map_iff in Hz as (c & <- & Hc).
  pose proof (fi_le_suma clases c Hv Hc) as Hle.
  assert (H0 : 0 <= fi c) by (eapply Forall_forall in Hv; eauto).
  unfold Ejerci.cabe_int64. apply andb_true_intro. split.
  - apply Z.leb_le. lia.
  - apply Z.ltb_lt. lia.
Qed.

Section DosTablas.

Variable format_g : Q -> string.

(** The running sums of the frame are those of the rows while they stay
    below [2 ^ 63]. *)
Lemma cumsum_filas (resto : list Clase) (len i acc : Z) :
  frecuencias_validas resto -> 0 <= acc ->
  acc + suma (map fi resto) < 2 ^ 63 ->
  Ejerci.cumsum_desde Ejerci.Int64 acc (map fi resto)
  = map Untitled1.f_Fi (Untitled1.construir_bucle format_g len i acc resto).
Proof.
  intros Hv. revert i acc.
  induction Hv as [|c resto Hc Hv IH]; intros i acc Hacc Hn; [reflexivity|].
  simpl in Hn |- *. pose proof (suma_nonneg resto Hv) as Hs.
  rewrite wrap_int64_id by lia. f_equal. apply IH; lia.
Qed.

Lemma etiquetas_filas (resto : list Clase) (len i : Z) (Fi : Z) :
  i + Z.of_nat (List.length resto) = len ->
  Ejerci.etiquetas_bucle format_g len i resto
  = map Untitled1.f_intervalo
        (Untitled1.construir_bucle format_g len i Fi resto).
Proof.
  revert i Fi; induction resto as [|c resto IH]; intros i Fi Hlen;
    [reflexivity|].
  simpl List.length in Hlen. simpl. f_equal.
  - unfold Untitled1.etiqueta.
    destruct (Z.ltb_spec i (len - 1)); destruct (Z.eqb_spec i (len - 1));
      try reflexivity; lia.
  - apply IH. lia.
Qed.

Lemma fi_filas (resto : list Clase) (len i Fi : Z) :
  map fi resto
  = map Untitled1.f_fi (Untitled1.construir_bucle format_g len i Fi resto).
Proof.
  revert i Fi; induction resto as [|c resto IH]; intros i Fi; simpl;
    [reflexivity|].
  f_equal. apply IH.
Qed.

Lemma amplitud_filas (resto : list Clase) (len i Fi : Z) :
  map (fun c => maximo c - minimo c)%Q resto
  = map Untitled1.f_A (Untitled1.construir_bucle format_g len i Fi resto).
Proof.
  revert i Fi; induction resto as [|c resto IH]; intros i Fi; simpl;
    [reflexivity|].
  f_equal. apply IH.
Qed.

Lemma ultimo_Fi (resto : list Clase) (len i acc d : Z) :
  resto <> [] ->
  List.last
    (map Untitled1.f_Fi (Untitled1.construir_bucle format_g len i acc resto)) d
  = acc + suma (map fi resto).
Proof.
  revert i acc; induction resto as [|c resto IH]; intros i acc Hne;
    [contradiction|].
  destruct resto as [|c' resto'].
  - simpl. lia.
  - specialize (IH (i + 1) (acc + fi c)).
    change (suma (map fi (c :: c' :: resto')))
      with (fi c + suma (map fi (c' :: resto'))).
    rewrite Z.add_assoc, <- IH by discriminate. reflexivity.
Qed.

(** X21.  For a non-empty class sequence with non-negative frequencies whose
    total is below [2 ^ 63], the labels, widths, frequencies and cumulative
    frequencies of the rows built by [Untitled-1.py] are, class for class,
    those of the data rows of the frame built by [ejerci.py], and the totals
    of the TOTAL row of the frame are the total returned by
    [Untitled-1.py]. *)
Theorem tablas_coinciden (clases : list Clase) :
  clases <> [] ->
  frecuencias_validas clases ->
  total_fi clases < 2 ^ 63 ->
  Ejerci.col_intervalo (Ejerci.construir_tabla format_g clases)
  = map (fun f => Ejerci.CStr (Untitled1.f_intervalo f))
        (fst (Untitled1.construir_tabla format_g clases))
    ++ [Ejerci.CStr "TOTAL"] /\
  Ejerci.col_amplitud (Ejerci.construir_tabla format_g clases)
  = map (fun f => Ejerci.CFloat (Untitled1.f_A f))
        (fst (Untitled1.construir_tabla format_g clases))
    ++ [Ejerci.CStr ""] /\
  Ejerci.col_fi (Ejerci.construir_tabla format_g clases)
  = map (fun f => Ejerci.CInt (Untitled1.f_fi f))
        (fst (Untitled1.construir_tabla format_g clases))
    ++ [Ejerci.CInt (snd (Untitled1.construir_tabla format_g clases))] /\
  Ejerci.col_Fi (Ejerci.construir_tabla format_g clases)
  = map (fun f => Ejerci.CInt (Untitled1.f_Fi f))
        (fst (Untitled1.construir_tabla format_g clases))
    ++ [Ejerci.CInt (snd (Untitled1.construir_tabla format_g clases))].
Proof.
  intros Hne Hv Hn. rewrite total_fi_suma in Hn.
  unfold Ejerci.construir_tabla, Untitled1.construir_tabla, Ejerci.pd_concat.
  cbn [fst snd Ejerci.col_intervalo Ejerci.col_amplitud Ejerci.col_fi
       Ejerci.col_Fi].
  set (len := Z.of_nat (List.length clases)).
  set (filas := Untitled1.construir_bucle format_g len 0 0 clases).
  assert (HFi : Ejerci.pd_cumsum (map fi clases) = map Untitled1.f_Fi filas).
  { unfold Ejerci.pd_cumsum. rewrite inferir_dtype_int64 by assumption.
    apply cumsum_filas; auto; lia. }
  repeat split.
  - rewrite (etiquetas_filas clases len 0 0) by (unfold len; lia).
    fold filas. now rewrite map_map.
  - rewrite (amplitud_filas clases len 0 0). fold filas. now rewrite map_map.
  - rewrite (fi_filas clases len 0 0) at 1. fold filas.
    rewrite map_map. reflexivity.
  - rewrite HFi. unfold filas at 2. rewrite ultimo_Fi by assumption.
    rewrite map_map, total_fi_suma. reflexivity.
Qed.

End DosTablas.

Lemma tablas_coinciden_ejemplo :
  tabla_ejemplo <> [] /\
  frecuencias_validas tabla_ejemplo /\
  total_fi tabla_ejemplo < 2 ^ 63 /\
  Ejerci.col_intervalo (Ejerci.construir_tabla Builtins.format_g tabla_ejemplo)
  = map (fun f => Ejerci.CStr (Untitled1.f_intervalo f))
        (fst (Untitled1.construir_tabla Builtins.format_g tabla_ejemplo))
    ++ [Ejerci.CStr "TOTAL"] /\
  Ejerci.col_amplitud (Ejerci.construir_tabla Builtins.format_g tabla_ejemplo)
  = map (fun f => Ejerci.CFloat (Untitled1.f_A f))
        (fst (Untitled1.construir_tabla Builtins.format_g tabla_ejemplo))
    ++ [Ejerci.CStr ""] /\
  Ejerci.col_fi (Ejerci.construir_tabla Builtins.format_g tabla_ejemplo)
  = map (fun f => Ejerci.CInt (Untitled1.f_fi f))
        (fst (Untitled1.construir_tabla Builtins.format_g tabla_ejemplo))
    ++ [Ejerci.CInt
          (snd (Untitled1.construir_tabla Builtins.format_g tabla_ejemplo))] /\
  Ejerci.col_Fi (Ejerci.construir_tabla Builtins.format_g tabla_ejemplo)
  = map (fun f => Ejerci.CInt (Untitled1.f_Fi f))
        (fst (Untitled1.construir_tabla Builtins.format_g tabla_ejemplo))
    ++ [Ejerci.CInt
          (snd (Untitled1.construir_tabla Builtins.format_g tabla_ejemplo))].
Proof.
  assert (Hv : frecuencias_validas tabla_ejemplo)
    by (repeat constructor; discriminate).
  split; [discriminate|]. split; [exact Hv|]. split; [reflexivity|].
  apply (tablas_coinciden Builtins.format_g tabla_ejemplo);
    [discriminate | exact Hv | reflexivity].
Defined.

(** C10.  The two builders on two classes of frequency [2 ^ 62]: the second
    row of [Untitled-1.py] has cumulative frequency [2 ^ 63], which is also
    the total it returns and the sum of the frequencies; the frame of
    [ejerci.py], whose running sums are signed 64-bit, has [- 2 ^ 63] in its
    second row and in its TOTAL row. *)
Theorem tablas_difieren :
  tabla_enorme <> [] /\
  option_map Untitled1.f_Fi
    (nth_error (fst (Untitled1.construir_tabla Builtins.format_g tabla_enorme)) 1)
  = Some (2 ^ 63) /\
  nth_error
    (Ejerci.col_Fi (Ejerci.construir_tabla Builtins.format_g tabla_enorme)) 1
  = Some (Ejerci.CInt (- 2 ^ 63)) /\
  Ejerci.CInt (2 ^ 63) <> Ejerci.CInt (- 2 ^ 63) /\
  snd (Untitled1.construir_tabla Builtins.format_g tabla_enorme) = 2 ^ 63 /\
  total_fi tabla_enorme = 2 ^ 63 /\
  nth_error
    (Ejerci.col_Fi (Ejerci.construir_tabla Builtins.format_g tabla_enorme)) 2
  = Some (Ejerci.CInt (- 2 ^ 63)).
Proof.
  split; [discriminate|]. split; [reflexivity|]. split; [reflexivity|].
  split; [discriminate|]. repeat split; reflexivity.
Qed.

(** * Worked examples *)

(** The sample table: cumulative frequencies 2, 7, 15, 19, 20 and total 20. *)
Example tabla_ejemplo_acumuladas :
  map Untitled1.f_Fi
      (fst (Untitled1.construir_tabla Builtins.format_g tabla_ejemplo))
  = [2; 7; 15; 19; 20] /\
  snd (Untitled1.construir_tabla Builtins.format_g tabla_ejemplo) = 20.
Proof. split; reflexivity. Qed.

Example tabla_ejemplo_etiquetas :
  map Untitled1.f_intervalo
      (fst (Untitled1.construir_tabla Builtins.format_g tabla_ejemplo))
  = ["[ 20 , 25 ["; "[ 25 , 30 ["; "[ 30 , 35 ["; "[ 35 , 40 [";
     "[ 40 , 45 ]"]%string.
Proof. reflexivity. Qed.

(** The quartiles of the sample table: 28, 31.875 and 35. *)
Example tabla_ejemplo_cuartiles :
  exists q1 q2 q3 : Q,
    Untitled1.cuantil_agrupado tabla_ejemplo 1 4 = Ok (Num q1) /\
    Untitled1.mediana_agrupada tabla_ejemplo = Ok (Num q2) /\
    Untitled1.cuantil_agrupado tabla_ejemplo 3 4 = Ok (Num q3) /\
    (q1 == 28)%Q /\ (q2 == 31.875)%Q /\ (q3 == 35)%Q.
Proof. do 3 eexists. repeat split; reflexivity. Qed.

(** On the empty sequence the table is empty and the median and the mode are
    undefined. *)
Example sin_clases :
  Untitled1.construir_tabla Builtins.format_g [] = ([], 0) /\
  Untitled1.mediana_agrupada [] = Ok NaN /\
  Untitled1.moda_agrupada [] = Ok None.
Proof. repeat split; reflexivity. Qed.

(** A single class [10, 20] with frequency 7: both neighbours are missing, so
    [d1 = d2 = 7] and the mode is [10 + (7 / 14) * 10], that is 15. *)
Example una_clase :
  exists moda : Q,
    Untitled1.moda_agrupada [mkClase 10 20 7] = Ok (Some moda) /\
    moda = (10 + inject_Z 7 / inject_Z (7 + 7) * (20 - 10))%Q /\
    (moda == 15)%Q.
Proof. eexists. repeat split; reflexivity. Qed.

(** With two classes of equal frequency the first one is the modal class. *)
Example empate_modal :
  Untitled1.indice_modal [mkClase 0 10 4; mkClase 10 20 4] = Ok 0 /\
  exists moda : Q,
    Untitled1.moda_agrupada [mkClase 0 10 4; mkClase 10 20 4] = Ok (Some moda) /\
    (moda == 10)%Q.
Proof. split; [reflexivity|]. eexists. split; reflexivity. Qed.

(** * Further properties of the statistics *)

(** ** The quantile *)

(** The scan only looks at the position through comparisons, so positions
    that denote the same number are located alike. *)
Lemma buscar_bucle_equiv (p p' : Q) (resto : list Clase) (i Fi : Z) :
  (p == p')%Q ->
  Untitled1.buscar_bucle p i Fi resto = Untitled1.buscar_bucle p' i Fi resto.
Proof.
  intros Hp. revert i Fi; induction resto as [|c resto IH]; intros i Fi;
    simpl; [reflexivity|].
  assert (Hle : Qle_bool p (inject_Z (Fi + fi c))
                = Qle_bool p' (inject_Z (Fi + fi c))).
  { destruct (Qle_bool p (inject_Z (Fi + fi c))) eqn:H1;
      destruct (Qle_bool p' (inject_Z (Fi + fi c))) eqn:H2; try reflexivity.
    - apply Qle_bool_iff in H1. rewrite Hp in H1.
      apply Qle_bool_iff in H1. congruence.
    - apply Qle_bool_iff in H2. rewrite <- Hp in H2.
      apply Qle_bool_iff in H2. congruence. }
  rewrite Hle. destruct (Qle_bool p' (inject_Z (Fi + fi c))); auto.
Qed.

Lemma buscar_equiv (clases : list Clase) (p p' : Q) :
  (p == p')%Q ->
  Untitled1.buscar_clase_por_posicion clases p
  = Untitled1.buscar_clase_por_posicion clases p'.
Proof.
  intros Hp. unfold Untitled1.buscar_clase_por_posicion.
  now rewrite (buscar_bucle_equiv p p' clases 0 0 Hp).
Qed.

Lemma posicion_cuantil_escala (j k n m : Z) :
  j <> 0 -> m <> 0 ->
  (posicion_cuantil (j * k) n (j * m) == posicion_cuantil k n m)%Q.
Proof.
  intros Hj Hm. unfold posicion_cuantil.
  replace (j * k * n) with (j * (k * n)) by ring.
  rewrite !inject_Z_mult. field. split.
  - intros H. unfold Qeq in H. simpl in H. lia.
  - intros H. unfold Qeq in H. simpl in H. lia.
Qed.

(** X4.  The quantile depends on [k] and [m] only through the fraction
    [k/m]: multiplying both by the same non-zero integer gives the same
    outcome (the same exception, or the same number).  In particular the
    median, [cuantil_agrupado(clases, 2, 4)], is the quantile [1/2]. *)
Theorem cuantil_agrupado_escala (clases : list Clase) (j k m : Z) :
  j <> 0 -> m <> 0 ->
  resultado_equiv (Untitled1.cuantil_agrupado clases (j * k) (j * m))
                  (Untitled1.cuantil_agrupado clases k m).
Proof.
  intros Hj Hm.
  destruct (Z.eq_dec (total_fi clases) 0) as [H0|Hn].
  { unfold Untitled1.cuantil_agrupado. rewrite H0. exact I. }
  assert (Hjm : j * m <> 0) by nia.
  pose proof (posicion_cuantil_escala j k (total_fi clases) m Hj Hm) as Hp.
  destruct (buscar_ok clases (posicion_cuantil k (total_fi clases) m))
    as (i & c & Hc & Hb); [now apply total_no_vacia|].
  pose proof Hb as Hb'. rewrite <- (buscar_equiv clases _ _ Hp) in Hb'.
  rewrite (cuantil_desplegado clases (j * k) (j * m) i c Hn Hjm Hc Hb').
  rewrite (cuantil_desplegado clases k m i c Hn Hm Hc Hb).
  destruct (fi c =? 0); [reflexivity|].
  simpl. now rewrite Hp.
Qed.

Lemma cuantil_agrupado_escala_ejemplo :
  2 <> 0 /\ 2 <> 0 /\
  resultado_equiv (Untitled1.mediana_agrupada tabla_ejemplo)
                  (Untitled1.cuantil_agrupado tabla_ejemplo 1 2).
Proof.
  split; [discriminate|]. split; [discriminate|].
  apply (cuantil_agrupado_escala tabla_ejemplo 2 1 2); discriminate.
Defined.

(** X5.  The locator is monotone: on a non-empty sequence a larger position
    is never located in an earlier class, whatever the frequencies are. *)
Theorem buscar_clase_por_posicion_monotona (clases : list Clase) (p p' : Q)
  (i i' Fi_1 Fi_1' : Z) :
  (p <= p')%Q ->
  Untitled1.buscar_clase_por_posicion clases p = Ok (i, Fi_1) ->
  Untitled1.buscar_clase_por_posicion clases p' = Ok (i', Fi_1') ->
  i <= i'.
Proof.
  intros Hpp Hb Hb'.
  assert (Hne : clases <> []).
  { intros ->. discriminate Hb. }
  destruct (buscar_caracterizacion clases p Hne)
    as [(j & Hj & Hp & Hfirst & Hbj) | (ini & ult & _ & Hnone & Hbj)];
    rewrite Hbj in Hb; injection Hb as <- <-;
    destruct (buscar_caracterizacion clases p' Hne)
      as [(j' & Hj' & Hp' & Hfirst' & Hbj') | (ini' & ult' & _ & Hnone' & Hbj')];
    rewrite Hbj' in Hb'; injection Hb' as <- <-.
  - destruct (Nat.le_gt_cases j j') as [Hle|Hgt]; [lia|].
    exfalso. apply (Hfirst j' Hgt). now apply (Qle_trans _ p').
  - lia.
  - exfalso. apply (Hnone j' Hj'). now apply (Qle_trans _ p').
  - lia.
Qed.

Lemma buscar_clase_por_posicion_monotona_ejemplo :
  (5 <= 15)%Q /\
  Untitled1.buscar_clase_por_posicion tabla_ejemplo 5 = Ok (1, 2) /\
  Untitled1.buscar_clase_por_posicion tabla_ejemplo 15 = Ok (2, 7) /\
  1 <= 2.
Proof.
  assert (H1 : Untitled1.buscar_clase_por_posicion tabla_ejemplo 5 = Ok (1, 2))
    by reflexivity.
  assert (H2 : Untitled1.buscar_clase_por_posicion tabla_ejemplo 15 = Ok (2, 7))
    by reflexivity.
  assert (Hle : (5 <= 15)%Q) by discriminate.
  split; [exact Hle|]. split; [exact H1|]. split; [exact H2|].
  exact (buscar_clase_por_posicion_monotona tabla_ejemplo 5 15 1 2 2 7
           Hle H1 H2).
Defined.

(** ** The rows of the table *)

Section FilasDeLaTabla.

Variable format_g : Q -> string.

(** Every row of the table is the row of the class at the same index. *)
Lemma construir_tabla_fila_inversa (clases : list Clase) (i : nat)
  (f : Untitled1.Fila) :
  nth_error (fst (Untitled1.construir_tabla format_g clases)) i = Some f ->
  exists c : Clase,
    nth_error clases i = Some c /\
    f = Untitled1.mkFila (etiqueta_esperada format_g c (es_ultima clases i))
                         (minimo c) (maximo c) (maximo c - minimo c)%Q (fi c)
                         (acumulada clases i).
Proof.
  intros Hf.
  assert (Hi : (i < List.length clases)%nat).
  { rewrite <- (construir_bucle_length format_g clases
                  (Z.of_nat (List.length clases)) 0 0).
    apply nth_error_Some. unfold Untitled1.construir_tabla in Hf.
    cbn [fst] in Hf. congruence. }
  destruct (nth_error clases i) as [c|] eqn:Hc;
    [|apply nth_error_None in Hc; lia].
  exists c. split; [reflexivity|].
  pose proof (construir_bucle_fila format_g clases [] i c Hc) as Hrow.
  simpl in Hrow. unfold Untitled1.construir_tabla in Hf. cbn [fst] in Hf.
  congruence.
Qed.

(** X7.  In the table of a non-empty sequence the cumulative frequency of
    the last row and the sum of the frequency column are both the total that
    [construir_tabla] returns. *)
Theorem construir_tabla_cierra (clases : list Clase) :
  clases <> [] ->
  exists ultima : Untitled1.Fila,
    nth_error (fst (Untitled1.construir_tabla format_g clases))
              (List.length clases - 1)
    = Some ultima /\
    Untitled1.f_Fi ultima = snd (Untitled1.construir_tabla format_g clases) /\
    suma (map Untitled1.f_fi (fst (Untitled1.construir_tabla format_g clases)))
    = snd (Untitled1.construir_tabla format_g clases).
Proof.
  intros Hne.
  assert (Hlt : (List.length clases - 1 < List.length clases)%nat)
    by (destruct clases; [contradiction|simpl; lia]).
  destruct (nth_error clases (List.length clases - 1)) as [c|] eqn:Hc;
    [|apply nth_error_None in Hc; lia].
  pose proof (construir_bucle_fila format_g clases [] _ c Hc) as Hrow.
  simpl in Hrow.
  unfold Untitled1.construir_tabla. cbn [fst snd].
  eexists. split; [exact Hrow|]. split.
  - cbn [Untitled1.f_Fi]. rewrite acumulada_ultima by assumption.
    symmetry. apply total_fi_suma.
  - rewrite <- (fi_filas format_g clases). symmetry. apply total_fi_suma.
Qed.

(** X8.  With non-negative frequencies the cumulative frequencies of the
    table never decrease from one row to a later one, and none exceeds the
    total. *)
Theorem construir_tabla_acumuladas_crecen (clases : list Clase) (i j : nat)
  (fi_ fj : Untitled1.Fila) :
  frecuencias_validas clases ->
  (i <= j)%nat ->
  nth_error (fst (Untitled1.construir_tabla format_g clases)) i = Some fi_ ->
  nth_error (fst (Untitled1.construir_tabla format_g clases)) j = Some fj ->
  0 <= Untitled1.f_Fi fi_ /\
  Untitled1.f_Fi fi_ <= Untitled1.f_Fi fj /\
  Untitled1.f_Fi fj <= snd (Untitled1.construir_tabla format_g clases).
Proof.
  intros Hv Hij Hi Hj.
  destruct (construir_tabla_fila_inversa clases i fi_ Hi) as (ci & Hci & ->).
  destruct (construir_tabla_fila_inversa clases j fj Hj) as (cj & Hcj & ->).
  cbn [Untitled1.f_Fi]. unfold Untitled1.construir_tabla. cbn [snd].
  rewrite total_fi_suma, <- acumulada_antes_total, <- !acumulada_antes_S.
  assert (Hjl : (j < List.length clases)%nat)
    by (apply nth_error_Some; congruence).
  split; [|split].
  - pose proof (suma_nonneg _ (validas_firstn clases (S i) Hv)) as H0.
    exact H0.
  - apply acumulada_antes_mono; auto. lia.
  - apply acumulada_antes_mono; auto.
Qed.

End FilasDeLaTabla.

Lemma construir_tabla_cierra_ejemplo :
  tabla_ejemplo <> [] /\
  exists ultima : Untitled1.Fila,
    nth_error (fst (Untitled1.construir_tabla Builtins.format_g tabla_ejemplo))
              (List.length tabla_ejemplo - 1)
    = Some ultima /\
    Untitled1.f_Fi ultima
    = snd (Untitled1.construir_tabla Builtins.format_g tabla_ejemplo) /\
    suma (map Untitled1.f_fi
              (fst (Untitled1.construir_tabla Builtins.format_g tabla_ejemplo)))
    = snd (Untitled1.construir_tabla Builtins.format_g tabla_ejemplo).
Proof.
  split; [discriminate|].
  apply (construir_tabla_cierra Builtins.format_g tabla_ejemplo). discriminate.
Defined.

Lemma construir_tabla_acumuladas_crecen_ejemplo :
  frecuencias_validas tabla_ejemplo /\
  (1 <= 3)%nat /\
  nth_error (fst (Untitled1.construir_tabla Builtins.format_g tabla_ejemplo)) 1
  = Some (Untitled1.mkFila "[ 25 , 30 [" 25 30 (30 - 25)%Q 5 7) /\
  nth_error (fst (Untitled1.construir_tabla Builtins.format_g tabla_ejemplo)) 3
  = Some (Untitled1.mkFila "[ 35 , 40 [" 35 40 (40 - 35)%Q 4 19) /\
  0 <= 7 /\ 7 <= 19 /\
  19 <= snd (Untitled1.construir_tabla Builtins.format_g tabla_ejemplo).
Proof.
  assert (Hv : frecuencias_validas tabla_ejemplo)
    by (repeat constructor; discriminate).
  assert (Hle : (1 <= 3)%nat) by (repeat constructor).
  split; [exact Hv|]. split; [exact Hle|]. split; [reflexivity|].
  split; [reflexivity|].
  exact (construir_tabla_acumuladas_crecen Builtins.format_g tabla_ejemplo 1 3
           _ _ Hv Hle eq_refl eq_refl).
Defined.

(** * Further properties of the frame of [ejerci.py] *)

Lemma wrap_int64_rango (z : Z) :
  - 2 ^ 63 <= Ejerci.wrap_int64 z < 2 ^ 63.
Proof.
  unfold Ejerci.wrap_int64.
  pose proof (Z.mod_pos_bound (z + 2 ^ 63) (2 ^ 64) ltac:(lia)). lia.
Qed.

Lemma wrap_int64_suma (a b : Z) :
  Ejerci.wrap_int64 (Ejerci.wrap_int64 a + b) = Ejerci.wrap_int64 (a + b).
Proof.
  unfold Ejerci.wrap_int64. f_equal.
  replace ((a + 2 ^ 63) mod 2 ^ 64 - 2 ^ 63 + b + 2 ^ 63)
    with ((a + 2 ^ 63) mod 2 ^ 64 + b) by ring.
  replace (a + b + 2 ^ 63) with ((a + 2 ^ 63) + b) by ring.
  now rewrite Zplus_mod_idemp_l.
Qed.

Lemma cumsum_int64_nth (l : list Z) (acc : Z) (i : nat) (x : Z) :
  nth_error l i = Some x ->
  nth_error (Ejerci.cumsum_desde Ejerci.Int64 (Ejerci.wrap_int64 acc) l) i
  = Some (Ejerci.wrap_int64 (acc + suma (firstn (S i) l))).
Proof.
  revert acc i; induction l as [|y l IH]; intros acc i Hx.
  - destruct i; discriminate.
  - destruct i as [|i]; simpl in Hx.
    + injection Hx as ->. simpl. rewrite wrap_int64_suma. f_equal. f_equal.
      lia.
    + cbn [Ejerci.cumsum_desde Ejerci.sumar nth_error].
      rewrite wrap_int64_suma, (IH (acc + y) i Hx). f_equal. f_equal.
      change (firstn (S (S i)) (y :: l)) with (y :: firstn (S i) l).
      simpl. lia.
Qed.

Section FormaDelMarco.

Variable format_g : Q -> string.

Lemma cumsum_desde_length (d : Ejerci.dtype) (l : list Z) (acc : Z) :
  List.length (Ejerci.cumsum_desde d acc l) = List.length l.
Proof.
  revert acc; induction l as [|x l IH]; intros acc; simpl; auto.
Qed.

(** X11.  When every frequency fits a signed 64-bit integer, the cumulative
    frequency the frame shows for class [i] is the true cumulative frequency
    reduced to the signed 64-bit range (so the two differ by a multiple of
    [2 ^ 64]), and it is the true one whenever that lies in the range. *)
Theorem marco_acumulada_int64 (clases : list Clase) (i : nat) (c : Clase) :
  forallb Ejerci.cabe_int64 (map fi clases) = true ->
  nth_error clases i = Some c ->
  nth_error (Ejerci.col_Fi (Ejerci.construir_tabla format_g clases)) i
  = Some (Ejerci.CInt (Ejerci.wrap_int64 (acumulada clases i))) /\
  (exists q : Z,
      Ejerci.wrap_int64 (acumulada clases i) = acumulada clases i + q * 2 ^ 64) /\
  (- 2 ^ 63 <= acumulada clases i < 2 ^ 63 ->
   Ejerci.wrap_int64 (acumulada clases i) = acumulada clases i).
Proof.
  intros Hfit Hc. split; [|split].
  - unfold Ejerci.construir_tabla, Ejerci.pd_concat. cbn [Ejerci.col_Fi].
    assert (Hi : (i < List.length clases)%nat)
      by (apply nth_error_Some; congruence).
    rewrite nth_error_app1
      by (rewrite length_map; unfold Ejerci.pd_cumsum;
          rewrite cumsum_desde_length, length_map; exact Hi).
    rewrite nth_error_map. unfold Ejerci.pd_cumsum, Ejerci.inferir_dtype.
    rewrite Hfit.
    assert (Hx : nth_error (map fi clases) i = Some (fi c))
      by (rewrite nth_error_map, Hc; reflexivity).
    pose proof (cumsum_int64_nth (map fi clases) 0 i (fi c) Hx) as Hn.
    change (Ejerci.wrap_int64 0) with 0 in Hn. rewrite Hn.
    unfold acumulada. rewrite <- firstn_map. reflexivity.
  - unfold Ejerci.wrap_int64.
    exists (- ((acumulada clases i + 2 ^ 63) / 2 ^ 64)).
    pose proof (Z.div_mod (acumulada clases i + 2 ^ 63) (2 ^ 64) ltac:(lia)).
    lia.
  - apply wrap_int64_id.
Qed.

End FormaDelMarco.

Lemma marco_acumulada_int64_ejemplo :
  forallb Ejerci.cabe_int64 (map fi tabla_enorme) = true /\
  nth_error tabla_enorme 1 = Some (mkClase 10 20 (2 ^ 62)) /\
  nth_error
    (Ejerci.col_Fi (Ejerci.construir_tabla Builtins.format_g tabla_enorme)) 1
  = Some (Ejerci.CInt (Ejerci.wrap_int64 (acumulada tabla_enorme 1))) /\
  (exists q : Z,
      Ejerci.wrap_int64 (acumulada tabla_enorme 1)
      = acumulada tabla_enorme 1 + q * 2 ^ 64) /\
  (- 2 ^ 63 <= acumulada tabla_enorme 1 < 2 ^ 63 ->
   Ejerci.wrap_int64 (acumulada tabla_enorme 1) = acumulada tabla_enorme 1).
Proof.
  split; [reflexivity|]. split; [reflexivity|].
  apply (marco_acumulada_int64 Builtins.format_g tabla_enorme 1
           (mkClase 10 20 (2 ^ 62))); reflexivity.
Defined.

(** * The entry fields of the window *)

Lemma pf_le_numeros (a b : Q) :
  pf_le (Num b) (Num a) = false -> (a < b)%Q.
Proof.
  simpl. intros H. apply Qnot_le_lt. intros Hle.
  apply Qle_bool_iff in Hle. congruence.
Qed.

Lemma clase_numerica_valida (c : ClaseLeida) (k : Clase) :
  pf_le (l_maximo c) (l_minimo c) = false -> 0 <= l_fi c ->
  clase_numerica c = Some k ->
  (minimo k < maximo k)%Q /\ 0 <= fi k.
Proof.
  unfold clase_numerica. intros Hle Hf Hk.
  destruct (l_minimo c) as [a| |]; try discriminate.
  destruct (l_maximo c) as [b| |]; try discriminate.
  injection Hk as <-. simpl. split; [now apply pf_le_numeros|exact Hf].
Qed.

Section CamposDeEntrada.

Variable py_float : string -> option pyfloat.
Variable py_int : string -> option Z.

(** X12.  [_leer_campos] returns a class only when the three texts parse
    (commas in the bounds read as decimal points); the class holds the parsed
    values, its frequency is not negative and its maximum is not [<=] its
    minimum, so when both bounds are numbers [minimo < maximo]. *)
Theorem leer_campos_valida (var_min var_max var_fi : string) (c : ClaseLeida) :
  App.leer_campos py_float py_int var_min var_max var_fi = App.Leida c ->
  py_float (reemplazar_coma var_min) = Some (l_minimo c) /\
  py_float (reemplazar_coma var_max) = Some (l_maximo c) /\
  py_int var_fi = Some (l_fi c) /\
  0 <= l_fi c /\
  pf_le (l_maximo c) (l_minimo c) = false /\
  (forall k : Clase,
      clase_numerica c = Some k -> (minimo k < maximo k)%Q /\ 0 <= fi k).
Proof.
  unfold App.leer_campos. intros H.
  destruct (py_float (reemplazar_coma var_min)) as [a|]; [|discriminate].
  destruct (py_float (reemplazar_coma var_max)) as [b|]; [|discriminate].
  destruct (py_int var_fi) as [f|]; [|discriminate].
  destruct (pf_le b a) eqn:Hle; [discriminate|].
  destruct (Z.ltb_spec f 0) as [Hneg|Hpos]; [discriminate|].
  injection H as <-. cbn [l_minimo l_maximo l_fi].
  repeat split; auto.
  - eapply clase_numerica_valida in H; [|exact Hle|exact Hpos]. tauto.
  - eapply clase_numerica_valida in H; [|exact Hle|exact Hpos]. tauto.
Qed.

(** X13.  The check [b <= a] of [_leer_campos] never rejects a bound that is
    not-a-number: when either bound parses to it, the other bound parses and
    the frequency parses to a non-negative integer, the class is returned. *)
Theorem leer_campos_no_rechaza_nan (var_min var_max var_fi : string)
  (a b : pyfloat) (f : Z) :
  py_float (reemplazar_coma var_min) = Some a ->
  py_float (reemplazar_coma var_max) = Some b ->
  py_int var_fi = Some f ->
  a = NaN \/ b = NaN ->
  0 <= f ->
  App.leer_campos py_float py_int var_min var_max var_fi
  = App.Leida (mkClaseLeida a b f).
Proof.
  intros Ha Hb Hf Hnan H0. unfold App.leer_campos. rewrite Ha, Hb, Hf.
  assert (Hle : pf_le b a = false).
  { destruct Hnan as [-> | ->]; [destruct b|]; reflexivity. }
  rewrite Hle. destruct (Z.ltb_spec f 0); [lia|reflexivity].
Qed.

End CamposDeEntrada.

Lemma leer_campos_valida_ejemplo :
  App.leer_campos Lectores.py_float Lectores.py_int "20,5" "25" "3"
  = App.Leida (mkClaseLeida (Num 20.5) (Num 25) 3) /\
  Lectores.py_float (reemplazar_coma "20,5") = Some (Num 20.5) /\
  Lectores.py_float (reemplazar_coma "25") = Some (Num 25) /\
  Lectores.py_int "3" = Some 3 /\
  0 <= 3 /\
  pf_le (Num 25) (Num 20.5) = false /\
  (forall k : Clase,
      clase_numerica (mkClaseLeida (Num 20.5) (Num 25) 3) = Some k ->
      (minimo k < maximo k)%Q /\ 0 <= fi k).
Proof.
  split; [reflexivity|].
  exact (leer_campos_valida Lectores.py_float Lectores.py_int "20,5" "25" "3"
           (mkClaseLeida (Num 20.5) (Num 25) 3) eq_refl).
Defined.

Lemma leer_campos_no_rechaza_nan_ejemplo :
  Lectores.py_float (reemplazar_coma "nan") = Some NaN /\
  Lectores.py_float (reemplazar_coma "25") = Some (Num 25) /\
  Lectores.py_int "3" = Some 3 /\
  (NaN = NaN \/ Num 25 = NaN) /\
  0 <= 3 /\
  App.leer_campos Lectores.py_float Lectores.py_int "nan" "25" "3"
  = App.Leida (mkClaseLeida NaN (Num 25) 3).
Proof.
  assert (H0 : 0 <= 3) by lia.
  split; [reflexivity|]. split; [reflexivity|]. split; [reflexivity|].
  split; [left; reflexivity|]. split; [exact H0|].
  exact (leer_campos_no_rechaza_nan Lectores.py_float Lectores.py_int
           "nan" "25" "3" NaN (Num 25) 3 eq_refl eq_refl eq_refl
           (or_introl eq_refl) H0).
Defined.

(** * The rows of the Treeview and the selection *)

Lemma py_setitem_nat {A : Type} (l : list A) (i : nat) (a : A) :
  (i < List.length l)%nat ->
  py_setitem l (Z.of_nat i) a = Ok (firstn i l ++ a :: skipn (S i) l).
Proof.
  intros Hi. unfold py_setitem.
  destruct (Z.ltb_spec (Z.of_nat i) 0) as [Hneg|_]; [lia|].
  destruct (Z.ltb_spec (Z.of_nat i) 0) as [Hneg|_]; [lia|].
  destruct (Z.leb_spec (Z.of_nat (List.length l)) (Z.of_nat i)) as [Hle|_];
    [lia|].
  simpl. now rewrite Nat2Z.id.
Qed.

Lemma py_delitem_nat {A : Type} (l : list A) (i : nat) :
  (i < List.length l)%nat ->
  py_delitem l (Z.of_nat i) = Ok (firstn i l ++ skipn (S i) l).
Proof.
  intros Hi. unfold py_delitem.
  destruct (Z.ltb_spec (Z.of_nat i) 0) as [Hneg|_]; [lia|].
  destruct (Z.ltb_spec (Z.of_nat i) 0) as [Hneg|_]; [lia|].
  destruct (Z.leb_spec (Z.of_nat (List.length l)) (Z.of_nat i)) as [Hle|_];
    [lia|].
  simpl. now rewrite Nat2Z.id.
Qed.

Lemma nth_error_firstn_lt {A : Type} (l : list A) (n j : nat) :
  (j < n)%nat -> nth_error (firstn n l) j = nth_error l j.
Proof.
  intros Hj. rewrite nth_error_firstn.
  destruct (Nat.ltb_spec j n); [reflexivity|lia].
Qed.

Lemma fuera_de_rango {A : Type} (l : list A) (a : A) :
  py_setitem l (Z.of_nat (List.length l)) a = Raise IndexError /\
  py_delitem l (Z.of_nat (List.length l)) = Raise IndexError /\
  py_getitem l (Z.of_nat (List.length l)) = Raise IndexError.
Proof.
  unfold py_setitem, py_delitem, py_getitem.
  destruct (Z.ltb_spec (Z.of_nat (List.length l)) 0) as [Hneg|_]; [lia|].
  destruct (Z.ltb_spec (Z.of_nat (List.length l)) 0) as [Hneg|_]; [lia|].
  destruct (Z.leb_spec (Z.of_nat (List.length l)) (Z.of_nat (List.length l)))
    as [_|Hlt]; [|lia].
  auto.
Qed.

Section FilasDelArbol.

Variable format_g : Q -> string.

Lemma refrescar_tabla_app (clases : list Clase) :
  App.refrescar_tabla format_g clases
  = map App.valores_de_fila
        (fst (Untitled1.construir_tabla format_g clases))
    ++ (if 0 <? total_fi clases then [App.fila_total (total_fi clases)]
        else []).
Proof. destruct clases; reflexivity. Qed.

Lemma refrescar_tabla_length (clases : list Clase) :
  List.length (App.refrescar_tabla format_g clases)
  = (List.length clases + if (0 <? total_fi clases)%Z then 1 else 0)%nat.
Proof.
  rewrite refrescar_tabla_app, length_app, length_map.
  unfold Untitled1.construir_tabla. cbn [fst].
  rewrite (construir_bucle_length format_g).
  destruct (0 <? total_fi clases); reflexivity.
Qed.

(** X14.  After [_refrescar_tabla] the Treeview shows one row per class, in
    order, with the label, bounds, width, frequency and cumulative frequency
    of the class, followed by a row ["TOTAL"] with the total exactly when the
    total is positive. *)
Theorem refrescar_tabla_filas (clases : list Clase) :
  List.length (App.refrescar_tabla format_g clases)
  = (List.length clases + if (0 <? total_fi clases)%Z then 1 else 0)%nat /\
  (forall (i : nat) (c : Clase),
      nth_error clases i = Some c ->
      nth_error (App.refrescar_tabla format_g clases) i
      = Some [App.VStr (etiqueta_esperada format_g c (es_ultima clases i));
              App.VFloat (minimo c); App.VFloat (maximo c);
              App.VFloat (maximo c - minimo c)%Q;
              App.VInt (fi c); App.VInt (acumulada clases i)]) /\
  nth_error (App.refrescar_tabla format_g clases) (List.length clases)
  = if 0 <? total_fi clases then Some (App.fila_total (total_fi clases))
    else None.
Proof.
  split; [apply refrescar_tabla_length|]. split.
  - intros i c Hc. rewrite refrescar_tabla_app.
    assert (Hi : (i < List.length clases)%nat)
      by (apply nth_error_Some; congruence).
    rewrite nth_error_app1
      by (rewrite length_map; unfold Untitled1.construir_tabla; cbn [fst];
          rewrite (construir_bucle_length format_g); exact Hi).
    rewrite nth_error_map. unfold Untitled1.construir_tabla. cbn [fst].
    pose proof (construir_bucle_fila format_g clases [] i c Hc) as Hrow.
    simpl in Hrow. rewrite Hrow. reflexivity.
  - rewrite refrescar_tabla_app.
    assert (Hlen : List.length
                     (map App.valores_de_fila
                        (fst (Untitled1.construir_tabla format_g clases)))
                   = List.length clases).
    { rewrite length_map. unfold Untitled1.construir_tabla. cbn [fst].
      apply (construir_bucle_length format_g). }
    rewrite nth_error_app2 by lia. rewrite Hlen, Nat.sub_diag.
    destruct (0 <? total_fi clases); reflexivity.
Qed.

(** X15.  Whatever row of the Treeview is selected, the three handlers that
    index [self.clases] with its position raise [IndexError] exactly when the
    row is the TOTAL row, which the Treeview holds only when the total is
    positive. *)
Theorem seleccion_de_la_fila_total (clases : list Clase) (idx : nat)
  (c : Clase) :
  (idx < List.length (App.refrescar_tabla format_g clases))%nat ->
  (idx = List.length clases -> 0 < total_fi clases) /\
  (App.agregar_clase clases (Some (Z.of_nat idx)) (Some c) = Raise IndexError
   <-> idx = List.length clases) /\
  (App.eliminar_seleccion clases (Some (Z.of_nat idx)) = Raise IndexError
   <-> idx = List.length clases) /\
  (App.cargar_desde_tabla clases (Some (Z.of_nat idx)) = Raise IndexError
   <-> idx = List.length clases).
Proof.
  intros Hidx. rewrite refrescar_tabla_length in Hidx.
  assert (Hcases : (idx < List.length clases)%nat
                   \/ (idx = List.length clases /\ 0 < total_fi clases)).
  { destruct (Z.ltb_spec 0 (total_fi clases)); lia. }
  unfold App.agregar_clase, App.eliminar_seleccion, App.cargar_desde_tabla.
  destruct Hcases as [Hlt | [-> Hn]].
  - split; [lia|].
    rewrite (py_setitem_nat clases idx c Hlt), (py_delitem_nat clases idx Hlt).
    destruct (nth_error clases idx) as [ci|] eqn:Hci;
      [|apply nth_error_None in Hci; lia].
    rewrite (py_getitem_nat clases idx ci Hci). cbn [bind].
    repeat split; intros H; try discriminate; lia.
  - destruct (fuera_de_rango clases c) as (Hs & Hd & Hg).
    rewrite Hs, Hd, Hg. cbn [bind]. repeat split; auto.
Qed.

End FilasDelArbol.

Lemma seleccion_de_la_fila_total_ejemplo :
  (2 < List.length (App.refrescar_tabla Builtins.format_g tabla_ultima_vacia))%nat
  /\
  (2%nat = List.length tabla_ultima_vacia -> 0 < total_fi tabla_ultima_vacia) /\
  (App.agregar_clase tabla_ultima_vacia (Some (Z.of_nat 2))
     (Some (mkClase 20 30 1)) = Raise IndexError
   <-> 2%nat = List.length tabla_ultima_vacia) /\
  (App.eliminar_seleccion tabla_ultima_vacia (Some (Z.of_nat 2))
   = Raise IndexError
   <-> 2%nat = List.length tabla_ultima_vacia) /\
  (App.cargar_desde_tabla tabla_ultima_vacia (Some (Z.of_nat 2))
   = Raise IndexError
   <-> 2%nat = List.length tabla_ultima_vacia).
Proof.
  assert (H : (2 < List.length
                     (App.refrescar_tabla Builtins.format_g tabla_ultima_vacia))%nat)
    by (repeat constructor).
  split; [exact H|].
  exact (seleccion_de_la_fila_total Builtins.format_g tabla_ultima_vacia 2
           (mkClase 20 30 1) H).
Defined.

(** X16.  The edits of the class list keep every property that holds of each
    class and of the class read: adding without a selection appends the class
    read, adding with a selected class replaces that class alone and keeps
    the number of classes, deleting removes the selected class alone, and
    nothing changes when [_leer_campos] returned [None]. *)
Theorem edicion_de_clases {A : Type} (P : A -> Prop) (clases : list A)
  (idx : nat) (c : A) :
  Forall P clases -> P c -> (idx < List.length clases)%nat ->
  App.agregar_clase clases None (Some c) = Ok (clases ++ [c]) /\
  Forall P (clases ++ [c]) /\
  App.agregar_clase clases (Some (Z.of_nat idx)) None = Ok clases /\
  (exists l' : list A,
      App.agregar_clase clases (Some (Z.of_nat idx)) (Some c) = Ok l' /\
      Forall P l' /\
      List.length l' = List.length clases /\
      nth_error l' idx = Some c /\
      forall j : nat, j <> idx -> nth_error l' j = nth_error clases j) /\
  (exists l' : list A,
      App.eliminar_seleccion clases (Some (Z.of_nat idx)) = Ok l' /\
      Forall P l' /\
      S (List.length l') = List.length clases /\
      (forall j : nat, (j < idx)%nat -> nth_error l' j = nth_error clases j) /\
      forall j : nat, (idx <= j)%nat -> nth_error l' j = nth_error clases (S j)).
Proof.
  intros HP Hc Hidx.
  assert (Hfl : List.length (firstn idx clases) = idx)
    by (rewrite length_firstn; lia).
  assert (HPf : Forall P (firstn idx clases)).
  { apply Forall_forall. intros x Hx. eapply Forall_forall in HP; [exact HP|].
    rewrite <- (firstn_skipn idx clases). apply in_or_app. now left. }
  assert (HPs : Forall P (skipn (S idx) clases)).
  { apply Forall_forall. intros x Hx. eapply Forall_forall in HP; [exact HP|].
    rewrite <- (firstn_skipn (S idx) clases). apply in_or_app. now right. }
  split; [reflexivity|]. split.
  { apply Forall_app. split; [exact HP|]. constructor; [exact Hc|constructor]. }
  split; [reflexivity|]. split.
  - unfold App.agregar_clase. rewrite (py_setitem_nat clases idx c Hidx).
    eexists. split; [reflexivity|]. split.
    { apply Forall_app. split; [exact HPf|]. constructor; assumption. }
    split.
    { rewrite length_app. cbn [List.length]. rewrite Hfl, length_skipn. lia. }
    split.
    { rewrite nth_error_app2 by lia. rewrite Hfl, Nat.sub_diag. reflexivity. }
    intros j Hj. destruct (Nat.lt_ge_cases j idx) as [Hlt|Hge].
    + rewrite nth_error_app1 by lia. apply nth_error_firstn_lt. exact Hlt.
    + rewrite nth_error_app2 by lia. rewrite Hfl.
      destruct (j - idx)%nat as [|d] eqn:Hd; [lia|].
      cbn [nth_error]. rewrite nth_error_skipn. f_equal. lia.
  - unfold App.eliminar_seleccion. rewrite (py_delitem_nat clases idx Hidx).
    eexists. split; [reflexivity|]. split.
    { apply Forall_app. split; assumption. }
    split.
    { rewrite length_app, Hfl, length_skipn. lia. }
    split.
    + intros j Hj. rewrite nth_error_app1 by lia.
      apply nth_error_firstn_lt. exact Hj.
    + intros j Hj. rewrite nth_error_app2 by lia. rewrite Hfl.
      rewrite nth_error_skipn. f_equal. lia.
Qed.

Lemma edicion_de_clases_ejemplo :
  Forall (fun c => 0 <= fi c) tabla_ejemplo /\
  0 <= fi (mkClase 50 60 3) /\
  (1 < List.length tabla_ejemplo)%nat /\
  App.agregar_clase tabla_ejemplo None (Some (mkClase 50 60 3))
  = Ok (tabla_ejemplo ++ [mkClase 50 60 3]) /\
  Forall (fun c => 0 <= fi c) (tabla_ejemplo ++ [mkClase 50 60 3]) /\
  App.agregar_clase tabla_ejemplo (Some (Z.of_nat 1)) None = Ok tabla_ejemplo /\
  (exists l' : list Clase,
      App.agregar_clase tabla_ejemplo (Some (Z.of_nat 1))
        (Some (mkClase 50 60 3)) = Ok l' /\
      Forall (fun c => 0 <= fi c) l' /\
      List.length l' = List.length tabla_ejemplo /\
      nth_error l' 1 = Some (mkClase 50 60 3) /\
      forall j : nat, j <> 1%nat -> nth_error l' j = nth_error tabla_ejemplo j) /\
  (exists l' : list Clase,
      App.eliminar_seleccion tabla_ejemplo (Some (Z.of_nat 1)) = Ok l' /\
      Forall (fun c => 0 <= fi c) l' /\
      S (List.length l') = List.length tabla_ejemplo /\
      (forall j : nat, (j < 1)%nat ->
         nth_error l' j = nth_error tabla_ejemplo j) /\
      forall j : nat, (1 <= j)%nat ->
         nth_error l' j = nth_error tabla_ejemplo (S j)).
Proof.
  assert (Hv : Forall (fun c => 0 <= fi c) tabla_ejemplo)
    by (repeat constructor; discriminate).
  assert (Hc : 0 <= fi (mkClase 50 60 3)) by discriminate.
  assert (Hi : (1 < List.length tabla_ejemplo)%nat) by (repeat constructor).
  split; [exact Hv|]. split; [exact Hc|]. split; [exact Hi|].
  exact (edicion_de_clases (fun c => 0 <= fi c) tabla_ejemplo 1
           (mkClase 50 60 3) Hv Hc Hi).
Defined.

(** * The console *)

Section LecturaPorConsola.

Variable py_float : string -> option pyfloat.
Variable py_int : string -> option Z.
Variable strip : string -> string.

Local Abbreviation pedir_entero := (Consola.pedir_entero py_int strip).
Local Abbreviation pedir_float := (Consola.pedir_float py_float strip).
Local Abbreviation pedir_maximo := (Consola.pedir_maximo py_float strip).
Local Abbreviation repetir_maximo := (Consola.repetir_maximo py_float strip).
Local Abbreviation leer_n := (Consola.leer_n py_float py_int strip).
Local Abbreviation leer_clases := (Consola.leer_clases py_float py_int strip).

Lemma pedir_entero_listo (minimo : Z) (entrada : list string) (v : Z)
  (resto : list string) :
  pedir_entero minimo entrada = Consola.Listo v resto ->
  exists (rechazadas : list string) (linea : string),
    entrada = rechazadas ++ linea :: resto /\
    py_int (strip linea) = Some v /\
    minimo <= v /\
    Forall (fun l => entero_rechazado py_int minimo (strip l)) rechazadas.
Proof.
  induction entrada as [|l entrada IH]; simpl; [discriminate|].
  unfold entero_rechazado in *.
  destruct (py_int (strip l)) as [w|] eqn:Hl.
  - destruct (Z.ltb_spec w minimo) as [Hlt|Hge].
    + intros H. destruct (IH H) as (r & ln & -> & Hln & Hv & Hr).
      exists (l :: r), ln. repeat split; auto.
      constructor; [now rewrite Hl|exact Hr].
    + intros H. injection H as <- <-. exists [], l. repeat split; auto.
  - intros H. destruct (IH H) as (r & ln & -> & Hln & Hv & Hr).
    exists (l :: r), ln. repeat split; auto.
    constructor; [now rewrite Hl|exact Hr].
Qed.

Lemma pedir_entero_eof (minimo : Z) (entrada : list string) :
  pedir_entero minimo entrada = Consola.EOFError <->
  Forall (fun l => entero_rechazado py_int minimo (strip l)) entrada.
Proof.
  induction entrada as [|l entrada IH]; simpl.
  - split; [constructor|reflexivity].
  - unfold entero_rechazado in *. split.
    + intros H. destruct (py_int (strip l)) as [w|] eqn:Hl.
      * destruct (Z.ltb_spec w minimo) as [Hlt|Hge]; [|discriminate].
        constructor; [now rewrite Hl|now apply IH].
      * constructor; [now rewrite Hl|now apply IH].
    + intros H. inversion H as [|? ? Hl Hr]; subst.
      destruct (py_int (strip l)) as [w|].
      * destruct (Z.ltb_spec w minimo) as [Hlt|Hge]; [now apply IH|lia].
      * now apply IH.
Qed.

(** X17.  [pedir_entero] skips every line that is not an integer or is an
    integer below [minimo], and returns the first integer that is at least
    [minimo], leaving the lines after it unread; it ends in [EOFError]
    exactly when no line qualifies. *)
Theorem pedir_entero_primera_valida (minimo : Z) (entrada : list string) :
  (forall (v : Z) (resto : list string),
      pedir_entero minimo entrada = Consola.Listo v resto ->
      exists (rechazadas : list string) (linea : string),
        entrada = rechazadas ++ linea :: resto /\
        py_int (strip linea) = Some v /\
        minimo <= v /\
        Forall (fun l => entero_rechazado py_int minimo (strip l)) rechazadas)
  /\
  (pedir_entero minimo entrada = Consola.EOFError <->
   Forall (fun l => entero_rechazado py_int minimo (strip l)) entrada).
Proof.
  split; [intros v resto; apply pedir_entero_listo|apply pedir_entero_eof].
Qed.

Lemma pedir_float_listo (entrada : list string) (v : pyfloat)
  (resto : list string) :
  pedir_float entrada = Consola.Listo v resto ->
  exists (rechazadas : list string) (linea : string),
    entrada = rechazadas ++ linea :: resto /\
    py_float (strip (reemplazar_coma linea)) = Some v /\
    Forall (fun l => py_float (strip (reemplazar_coma l)) = None) rechazadas.
Proof.
  induction entrada as [|l entrada IH]; simpl; [discriminate|].
  destruct (py_float (strip (reemplazar_coma l))) as [w|] eqn:Hl.
  - intros H. injection H as <- <-. exists [], l. auto.
  - intros H. destruct (IH H) as (r & ln & -> & Hln & Hr).
    exists (l :: r), ln. repeat split; auto.
Qed.

Lemma pedir_float_consume (entrada : list string) (v : pyfloat)
  (resto : list string) :
  pedir_float entrada = Consola.Listo v resto ->
  (List.length resto < List.length entrada)%nat.
Proof.
  intros H. destruct (pedir_float_listo _ _ _ H) as (r & ln & -> & _).
  rewrite length_app. simpl. lia.
Qed.

(** X18.  [pedir_float] skips every line that is not a float once its commas
    are read as decimal points, and returns the first one that is, leaving
    the lines after it unread; it ends in [EOFError] exactly when no line
    parses. *)
Theorem pedir_float_primera_valida (entrada : list string) :
  (forall (v : pyfloat) (resto : list string),
      pedir_float entrada = Consola.Listo v resto ->
      exists (rechazadas : list string) (linea : string),
        entrada = rechazadas ++ linea :: resto /\
        py_float (strip (reemplazar_coma linea)) = Some v /\
        Forall (fun l => py_float (strip (reemplazar_coma l)) = None)
               rechazadas)
  /\
  (pedir_float entrada = Consola.EOFError <->
   Forall (fun l => py_float (strip (reemplazar_coma l)) = None) entrada).
Proof.
  split; [intros v resto; apply pedir_float_listo|].
  induction entrada as [|l entrada IH]; simpl.
  - split; [constructor|reflexivity].
  - destruct (py_float (strip (reemplazar_coma l))) as [w|] eqn:Hl.
    + split; [discriminate|]. intros H. inversion H; subst. congruence.
    + split.
      * intros H. constructor; [exact Hl|now apply IH].
      * intros H. inversion H; subst. now apply IH.
Qed.

Lemma repetir_maximo_listo (fuel : nat) (a b : pyfloat)
  (entrada : list string) (b' : pyfloat) (resto : list string) :
  repetir_maximo fuel a b entrada = Consola.Listo b' resto ->
  pf_le b' a = false /\
  exists consumidas : list string, entrada = consumidas ++ resto.
Proof.
  revert b entrada; induction fuel as [|fuel IH]; intros b entrada; simpl.
  - destruct (pf_le b a) eqn:Hle; [discriminate|].
    intros H. injection H as <- <-. split; [exact Hle|]. now exists [].
  - destruct (pf_le b a) eqn:Hle.
    + destruct (pedir_float entrada) as [b1 e1|] eqn:Hf; [|discriminate].
      simpl. intros H. destruct (IH b1 e1 H) as (Hb' & cons & ->).
      split; [exact Hb'|].
      destruct (pedir_float_listo _ _ _ Hf) as (r & ln & -> & _).
      exists (r ++ ln :: cons). now rewrite <- app_assoc.
    + intros H. injection H as <- <-. split; [exact Hle|]. now exists [].
Qed.

(** More fuel than lines changes nothing: the loop never stops for lack of
    fuel while a line is left. *)
Lemma repetir_maximo_fuel (fuel fuel' : nat) (a b : pyfloat)
  (entrada : list string) :
  (List.length entrada <= fuel)%nat -> (List.length entrada <= fuel')%nat ->
  repetir_maximo fuel a b entrada = repetir_maximo fuel' a b entrada.
Proof.
  revert fuel' b entrada; induction fuel as [|fuel IH];
    intros fuel' b entrada Hf Hf'.
  - destruct entrada; [|simpl in Hf; lia].
    destruct fuel'; simpl; destruct (pf_le b a); reflexivity.
  - destruct fuel' as [|fuel'].
    + destruct entrada; [|simpl in Hf'; lia].
      simpl. destruct (pf_le b a); reflexivity.
    + simpl. destruct (pf_le b a); [|reflexivity].
      destruct (pedir_float entrada) as [b1 e1|] eqn:He; [|reflexivity].
      simpl. pose proof (pedir_float_consume _ _ _ He). apply IH; lia.
Qed.

(** X19.  The loop [while b <= a] of [leer_clases] reads nothing when the
    maximum is already not [<=] the minimum; otherwise it reads floats until
    one is not [<=] the minimum and returns that one.  It stops only by
    returning or because no line is left: any number of turns that is at
    least the number of lines left gives the same outcome. *)
Theorem pedir_maximo_devuelve (a b : pyfloat) (entrada : list string) :
  (pf_le b a = false -> pedir_maximo a b entrada = Consola.Listo b entrada) /\
  (forall (b' : pyfloat) (resto : list string),
      pedir_maximo a b entrada = Consola.Listo b' resto ->
      pf_le b' a = false /\
      exists consumidas : list string, entrada = consumidas ++ resto) /\
  (forall fuel : nat,
      (List.length entrada <= fuel)%nat ->
      repetir_maximo fuel a b entrada = pedir_maximo a b entrada).
Proof.
  unfold Consola.pedir_maximo. split; [|split].
  - intros Hle. destruct (List.length entrada); simpl; now rewrite Hle.
  - intros b' resto. apply repetir_maximo_listo.
  - intros fuel Hf. apply repetir_maximo_fuel; lia.
Qed.

Lemma leer_n_listo (n : nat) (entrada : list string)
  (clases : list ClaseLeida) (resto : list string) :
  leer_n n entrada = Consola.Listo clases resto ->
  List.length clases = n /\
  Forall clase_leida_valida clases /\
  exists consumidas : list string, entrada = consumidas ++ resto.
Proof.
  revert entrada clases resto; induction n as [|n IH];
    intros entrada clases resto; simpl.
  - intros H. injection H as <- <-. repeat split; [constructor|now exists []].
  - destruct (pedir_float entrada) as [a e1|] eqn:Ha; [|discriminate].
    simpl. destruct (pedir_float e1) as [b e2|] eqn:Hb; [|discriminate].
    simpl. destruct (Consola.pedir_maximo py_float strip a b e2) as [b' e3|]
      eqn:Hm; [|discriminate].
    simpl. destruct (pedir_entero 0 e3) as [f e4|] eqn:Hf; [|discriminate].
    simpl. destruct (leer_n n e4) as [cs e5|] eqn:Hn; [|discriminate].
    simpl. intros H. injection H as <- <-.
    destruct (IH _ _ _ Hn) as (Hlen & Hval & c5 & ->).
    destruct (pedir_float_listo _ _ _ Ha) as (r1 & l1 & -> & _).
    destruct (pedir_float_listo _ _ _ Hb) as (r2 & l2 & -> & _).
    destruct (repetir_maximo_listo _ _ _ _ _ _ Hm) as (Hle & c3 & ->).
    destruct (pedir_entero_listo _ _ _ _ Hf) as (r4 & l4 & -> & _ & Hf0 & _).
    split; [simpl; lia|]. split.
    + constructor; [|exact Hval]. split; assumption.
    + exists (r1 ++ l1 :: r2 ++ l2 :: c3 ++ r4 ++ l4 :: c5).
      repeat (rewrite <- app_assoc; simpl). reflexivity.
Qed.

(** X20.  When [leer_clases] returns, it has read the number [k >= 1] of
    classes and then exactly [k] classes, each with a frequency that is not
    negative and a maximum that is not [<=] its minimum (so [minimo < maximo]
    when both are numbers), and the lines it leaves are the end of the
    input. *)
Theorem leer_clases_validas (entrada : list string)
  (clases : list ClaseLeida) (resto : list string) :
  leer_clases entrada = Consola.Listo clases resto ->
  exists (k : Z) (e1 consumidas : list string),
    pedir_entero 1 entrada = Consola.Listo k e1 /\
    1 <= k /\
    Z.of_nat (List.length clases) = k /\
    Forall clase_leida_valida clases /\
    (forall (c : ClaseLeida) (cn : Clase),
        In c clases -> clase_numerica c = Some cn ->
        (minimo cn < maximo cn)%Q /\ 0 <= fi cn) /\
    entrada = consumidas ++ resto.
Proof.
  unfold Consola.leer_clases.
  destruct (pedir_entero 1 entrada) as [k e1|] eqn:Hk; [|discriminate].
  simpl. intros H.
  destruct (pedir_entero_listo _ _ _ _ Hk) as (r & ln & -> & _ & Hk1 & _).
  destruct (leer_n_listo _ _ _ _ H) as (Hlen & Hval & cons & ->).
  exists k, (cons ++ resto), (r ++ ln :: cons).
  split; [reflexivity|]. split; [exact Hk1|]. split; [lia|].
  split; [exact Hval|]. split.
  - intros c cn Hin Hcn. eapply Forall_forall in Hval; [|exact Hin].
    destruct Hval as [Hf Hle]. eapply clase_numerica_valida; eauto.
  - now rewrite <- app_assoc.
Qed.

End LecturaPorConsola.

Lemma pedir_entero_primera_valida_ejemplo :
  Consola.pedir_entero Lectores.py_int Lectores.strip 1 ["x"; "0"; " 3 "; "7"]%string
  = Consola.Listo 3 ["7"]%string /\
  exists (rechazadas : list string) (linea : string),
    ["x"; "0"; " 3 "; "7"]%string = rechazadas ++ linea :: ["7"%string] /\
    Lectores.py_int (Lectores.strip linea) = Some 3 /\
    1 <= 3 /\
    Forall (fun l => entero_rechazado Lectores.py_int 1 (Lectores.strip l))
           rechazadas.
Proof.
  split; [reflexivity|].
  exact (proj1 (pedir_entero_primera_valida Lectores.py_int Lectores.strip 1
                  ["x"; "0"; " 3 "; "7"]%string) 3 ["7"%string] eq_refl).
Defined.

Lemma pedir_maximo_devuelve_ejemplo :
  Consola.pedir_maximo Lectores.py_float Lectores.strip (Num 20) (Num 15)
    ["20"; "malo"; "25,5"; "4"]%string
  = Consola.Listo (Num 25.5) ["4"]%string /\
  pf_le (Num 25.5) (Num 20) = false /\
  exists consumidas : list string,
    ["20"; "malo"; "25,5"; "4"]%string = consumidas ++ ["4"%string].
Proof.
  split; [reflexivity|].
  exact (proj1 (proj2 (pedir_maximo_devuelve Lectores.py_float Lectores.strip
                         (Num 20) (Num 15)
                         ["20"; "malo"; "25,5"; "4"]%string))
           (Num 25.5) ["4"%string] eq_refl).
Defined.

Lemma leer_clases_validas_ejemplo :
  Consola.leer_clases Lectores.py_float Lectores.py_int Lectores.strip
    ["2"; "20"; "20"; "25"; "4"; "25,5"; "30"; "-1"; "0"; "fin"]%string
  = Consola.Listo
      [mkClaseLeida (Num 20) (Num 25) 4; mkClaseLeida (Num 25.5) (Num 30) 0]
      ["fin"]%string /\
  exists (k : Z) (e1 consumidas : list string),
    Consola.pedir_entero Lectores.py_int Lectores.strip 1
      ["2"; "20"; "20"; "25"; "4"; "25,5"; "30"; "-1"; "0"; "fin"]%string
    = Consola.Listo k e1 /\
    1 <= k /\
    Z.of_nat
      (List.length
         [mkClaseLeida (Num 20) (Num 25) 4; mkClaseLeida (Num 25.5) (Num 30) 0])
    = k /\
    Forall clase_leida_valida
      [mkClaseLeida (Num 20) (Num 25) 4; mkClaseLeida (Num 25.5) (Num 30) 0] /\
    (forall (c : ClaseLeida) (cn : Clase),
        In c [mkClaseLeida (Num 20) (Num 25) 4;
              mkClaseLeida (Num 25.5) (Num 30) 0] ->
        clase_numerica c = Some cn ->
        (minimo cn < maximo cn)%Q /\ 0 <= fi cn) /\
    ["2"; "20"; "20"; "25"; "4"; "25,5"; "30"; "-1"; "0"; "fin"]%string
    = consumidas ++ ["fin"%string].
Proof.
  split; [reflexivity|].
  exact (leer_clases_validas Lectores.py_float Lectores.py_int Lectores.strip
           ["2"; "20"; "20"; "25"; "4"; "25,5"; "30"; "-1"; "0"; "fin"]%string
           _ _ eq_refl).
Defined.

(** * Binary floating point: conversions and quotients *)

Lemma digits2_size (p : positive) : digits2_pos p = Pos.size p.
Proof. induction p; simpl; congruence. Qed.

Lemma Zdigits2_log2 (m : Z) : 0 < m -> Zdigits2 m = Z.log2 m + 1.
Proof.
  destruct m as [|p|p]; try lia. intros _. simpl.
  rewrite digits2_size. destruct p; simpl; lia.
Qed.

Lemma iter_pos_nat {A : Type} (f : A -> A) (n : positive) (x : A) :
  iter_pos f n x = Nat.iter (Pos.to_nat n) f x.
Proof.
  revert x. induction n as [n IH|n IH|]; intros x; cbn [iter_pos].
  - rewrite !IH, Pos2Nat.inj_xI, Nat.iter_succ_r.
    replace (2 * Pos.to_nat n)%nat with (Pos.to_nat n + Pos.to_nat n)%nat by lia.
    now rewrite Nat.iter_add.
  - rewrite !IH, Pos2Nat.inj_xO.
    replace (2 * Pos.to_nat n)%nat with (Pos.to_nat n + Pos.to_nat n)%nat by lia.
    now rewrite Nat.iter_add.
  - reflexivity.
Qed.

Lemma shr_1_m (mrs : shr_record) :
  0 <= shr_m mrs -> shr_m (shr_1 mrs) = Z.div2 (shr_m mrs).
Proof.
  destruct mrs as [m r s]. simpl.
  destruct m as [|[p|p|]|p]; simpl; try reflexivity; lia.
Qed.

Lemma iter_shr_1_m (n : nat) (mrs : shr_record) :
  0 <= shr_m mrs ->
  shr_m (Nat.iter n shr_1 mrs) = Z.shiftr (shr_m mrs) (Z.of_nat n).
Proof.
  intros H. induction n as [|n IH].
  - simpl. now rewrite Z.shiftr_0_r.
  - rewrite Nat2Z.inj_succ, Nat.iter_succ, shr_1_m.
    + rewrite IH, Z.div2_spec, Z.shiftr_shiftr by lia. f_equal.
    + rewrite IH. now apply Z.shiftr_nonneg.
Qed.

(** Shifting a mantissa to the right divides it by a power of two. *)
Lemma shr_m_shr (mrs : shr_record) (e n : Z) :
  0 <= shr_m mrs -> 0 <= n ->
  shr_m (fst (shr mrs e n)) = Z.shiftr (shr_m mrs) n.
Proof.
  intros Hm Hn. destruct n as [|p|p]; simpl.
  - now rewrite Z.shiftr_0_r.
  - rewrite iter_pos_nat, iter_shr_1_m by exact Hm. now rewrite positive_nat_Z.
  - lia.
Qed.

Lemma fexp_64 (x : Z) : fexp prec emax x = Z.max (x - 53) (-1074).
Proof. reflexivity. Qed.

Lemma shr_record_of_loc_m (m : Z) (l : location) :
  shr_m (shr_record_of_loc m l) = m.
Proof. destruct l as [|[| |]]; reflexivity. Qed.

Lemma shr_fexp_nonneg (m e : Z) (l : location) :
  0 <= m -> 0 <= shr_m (fst (shr_fexp prec emax m e l)).
Proof.
  intros Hm. unfold shr_fexp.
  destruct (Z_le_gt_dec 0 (fexp prec emax (Zdigits2 m + e) - e)) as [Hn|Hn].
  - rewrite shr_m_shr by (try rewrite shr_record_of_loc_m; lia).
    rewrite shr_record_of_loc_m. now apply Z.shiftr_nonneg.
  - destruct (fexp prec emax (Zdigits2 m + e) - e); try lia.
    simpl. now rewrite shr_record_of_loc_m.
Qed.

(** A mantissa whose leading bit lies above the smallest exponent of the
    format keeps a positive mantissa, and its leading bit, when it is brought
    to the exponent the format gives it. *)
Lemma shr_fexp_pos (m e : Z) (l : location) :
  0 < m -> -1074 < Zdigits2 m + e ->
  0 < shr_m (fst (shr_fexp prec emax m e l)) /\
  Zdigits2 (shr_m (fst (shr_fexp prec emax m e l)))
  + snd (shr_fexp prec emax m e l)
  = Zdigits2 m + e.
Proof.
  intros Hm Hd. unfold shr_fexp. rewrite fexp_64.
  rewrite (Zdigits2_log2 m Hm) in *.
  set (n := Z.max (Z.log2 m + 1 + e - 53) (-1074) - e).
  pose proof (Z.log2_nonneg m) as Hl.
  destruct (Z_le_gt_dec n 0) as [Hn|Hn].
  - assert (Heq : shr (shr_record_of_loc m l) e n = (shr_record_of_loc m l, e))
      by (destruct n; try reflexivity; lia).
    rewrite Heq. cbn [fst snd]. rewrite shr_record_of_loc_m.
    split; [exact Hm|]. rewrite (Zdigits2_log2 m Hm). lia.
  - assert (Hs : snd (shr (shr_record_of_loc m l) e n) = e + n)
      by (destruct n; try reflexivity; lia).
    rewrite Hs, shr_m_shr by (try rewrite shr_record_of_loc_m; lia).
    rewrite shr_record_of_loc_m.
    assert (Hle : n <= Z.log2 m) by lia.
    assert (Hpos : 0 < Z.shiftr m n).
    { rewrite Z.shiftr_div_pow2 by lia.
      apply Z.div_str_pos. split; [apply Z.pow_pos_nonneg; lia|].
      etransitivity; [apply Z.pow_le_mono_r with (c := Z.log2 m); lia|].
      apply Z.log2_spec; lia. }
    split; [exact Hpos|].
    rewrite (Zdigits2_log2 _ Hpos), Z.log2_shiftr by lia. lia.
Qed.

Lemma round_nearest_even_pos (m : Z) (l : location) :
  0 < m ->
  0 < round_nearest_even m l /\ Zdigits2 m <= Zdigits2 (round_nearest_even m l).
Proof.
  intros Hm.
  assert (H1 : 0 < m + 1 /\ Zdigits2 m <= Zdigits2 (m + 1)).
  { split; [lia|]. rewrite !Zdigits2_log2 by lia.
    pose proof (Z.log2_le_mono m (m + 1)). lia. }
  destruct l as [|[| |]]; simpl; try (split; lia); try exact H1.
  destruct (Z.even m); [split; lia|exact H1].
Qed.

Lemma round_nearest_even_nonneg (m : Z) (l : location) :
  0 <= m -> 0 <= round_nearest_even m l.
Proof.
  intros Hm. destruct l as [|[| |]]; simpl; try lia.
  destruct (Z.even m); lia.
Qed.

(** Rounding a non-negative mantissa never gives NaN. *)
Lemma binary_round_aux_finito (s : bool) (m e : Z) (l : location) :
  0 <= m ->
  binary_round_aux prec emax s m e l = S754_infinity s \/
  f64_finito (binary_round_aux prec emax s m e l) = true.
Proof.
  intros Hm. unfold binary_round_aux.
  pose proof (shr_fexp_nonneg m e l Hm) as H1.
  destruct (shr_fexp prec emax m e l) as [mrs1 e1]. simpl in H1.
  pose proof (round_nearest_even_nonneg _ (loc_of_shr_record mrs1) H1) as H2.
  pose proof (shr_fexp_nonneg _ e1 loc_Exact H2) as H3.
  destruct (shr_fexp prec emax _ e1 loc_Exact) as [mrs2 e2]. simpl in H3.
  destruct (shr_m mrs2) as [|p|p]; try lia.
  - now right.
  - destruct (e2 <=? emax - prec); [now right | now left].
Qed.

(** Rounding a positive mantissa whose leading bit lies above the smallest
    exponent gives a non-zero number of the same sign, or overflows. *)
Lemma binary_round_aux_pos (s : bool) (m e : Z) (l : location) :
  0 < m -> -1074 < Zdigits2 m + e ->
  binary_round_aux prec emax s m e l = S754_infinity s \/
  exists (m' : positive) (e' : Z),
    binary_round_aux prec emax s m e l = S754_finite s m' e'.
Proof.
  intros Hm Hd. unfold binary_round_aux.
  destruct (shr_fexp_pos m e l Hm Hd) as [H1 H2].
  destruct (shr_fexp prec emax m e l) as [mrs1 e1]. simpl in H1, H2.
  destruct (round_nearest_even_pos (shr_m mrs1) (loc_of_shr_record mrs1) H1)
    as [H3 H4].
  assert (Hd' : -1074 < Zdigits2 (round_nearest_even (shr_m mrs1)
                                    (loc_of_shr_record mrs1)) + e1) by lia.
  destruct (shr_fexp_pos _ e1 loc_Exact H3 Hd') as [H5 _].
  destruct (shr_fexp prec emax _ e1 loc_Exact) as [mrs2 e2]. simpl in H5.
  destruct (shr_m mrs2) as [|p|p]; try lia.
  destruct (e2 <=? emax - prec); [right; eauto | now left].
Qed.

Lemma size_iter_xO (m d : positive) :
  Zpos (Pos.size (Pos.iter xO m d)) = Zpos (Pos.size m) + Zpos d.
Proof.
  induction d as [|d IH] using Pos.peano_ind.
  - simpl. lia.
  - rewrite Pos.iter_succ. simpl. lia.
Qed.

Lemma binary_round_pos (s : bool) (m : positive) (e : Z) :
  -1074 < Zpos (digits2_pos m) + e ->
  binary_round prec emax s m e = S754_infinity s \/
  exists (m' : positive) (e' : Z),
    binary_round prec emax s m e = S754_finite s m' e'.
Proof.
  intros Hd. unfold binary_round.
  set (x := fexp prec emax (Zpos (digits2_pos m) + e)).
  assert (Hal : -1074 < Zdigits2 (Zpos (fst (shl_align m e x)))
                        + snd (shl_align m e x)).
  { unfold shl_align.
    destruct (x - e) as [|d|d] eqn:Hsh; cbn [fst snd Zdigits2]; try lia.
    rewrite digits2_size, size_iter_xO, <- digits2_size. lia. }
  destruct (shl_align m e x) as [mz ez]. cbn [fst snd] in Hal.
  apply binary_round_aux_pos; [lia|exact Hal].
Qed.

(** [float(z)] of a non-zero integer is a non-zero number with the sign of
    [z]. *)
Lemma f64_de_int_no_cero (z : Z) (x : f64) :
  f64_de_int z = Ok x -> z <> 0 ->
  exists (m : positive) (e : Z), x = S754_finite (z <? 0) m e.
Proof.
  unfold f64_de_int, f64_entero, binary_normalize. intros H Hz.
  destruct z as [|p|p]; [contradiction| |].
  - destruct (binary_round_pos false p 0) as [Hi|(m & e & Hf)];
      [pose proof (Pos2Z.is_pos (digits2_pos p)); lia| |].
    + rewrite Hi in H. discriminate.
    + rewrite Hf in H. injection H as <-. now exists m, e.
  - destruct (binary_round_pos true p 0) as [Hi|(m & e & Hf)];
      [pose proof (Pos2Z.is_pos (digits2_pos p)); lia| |].
    + rewrite Hi in H. discriminate.
    + rewrite Hf in H. injection H as <-. now exists m, e.
Qed.

Lemma f64_de_int_cero : f64_de_int 0 = Ok (S754_zero false).
Proof. reflexivity. Qed.

(** [float(z)] is a number. *)
Lemma f64_de_int_finito (z : Z) (x : f64) :
  f64_de_int z = Ok x -> f64_finito x = true.
Proof.
  intros H. destruct (Z.eq_dec z 0) as [->|Hz].
  - injection H as <-. reflexivity.
  - destruct (f64_de_int_no_cero z x H Hz) as (m & e & ->). reflexivity.
Qed.

Lemma SFdiv_core_nonneg (m1 m2 : positive) (e1 e2 : Z) :
  0 <= fst (fst (SFdiv_core_binary prec emax (Zpos m1) e1 (Zpos m2) e2)).
Proof.
  unfold SFdiv_core_binary.
  set (s := e1 - e2 - Z.min _ _).
  set (m' := match s with
             | 0 => Zpos m1
             | Zpos _ => Z.shiftl (Zpos m1) s
             | Zneg _ => 0
             end).
  assert (Hm : 0 <= m').
  { unfold m'. destruct s; try lia. apply Z.shiftl_nonneg. lia. }
  pose proof (Z.div_pos m' (Zpos m2) Hm ltac:(lia)) as Hq.
  unfold Z.div in Hq. now destruct (Z.div_eucl m' (Zpos m2)).
Qed.

(** The quotient of two non-zero numbers is a number, or overflows. *)
Lemma f64_quot_finito (s1 s2 : bool) (m1 m2 : positive) (e1 e2 : Z) :
  (exists s : bool,
      (S754_finite s1 m1 e1 / S754_finite s2 m2 e2)%f64 = S754_infinity s) \/
  f64_finito (S754_finite s1 m1 e1 / S754_finite s2 m2 e2)%f64 = true.
Proof.
  unfold f64_quot, SFdiv.
  pose proof (SFdiv_core_nonneg m1 m2 e1 e2) as Hm.
  destruct (SFdiv_core_binary prec emax (Zpos m1) e1 (Zpos m2) e2)
    as [[mz ez] lz].
  cbn [fst] in Hm.
  destruct (binary_round_aux_finito (xorb s1 s2) mz ez lz Hm) as [Hi|Hf];
    [left; eauto | now right].
Qed.

(** [a / b] on ints is a number. *)
Lemma f64_int_truediv_finito (a b : Z) (x : f64) :
  f64_int_truediv a b = Ok x -> f64_finito x = true.
Proof.
  unfold f64_int_truediv. destruct (Z.eqb_spec b 0) as [|Hb]; [discriminate|].
  assert (Hq : (exists s : bool,
                   (f64_operando a / f64_operando b)%f64 = S754_infinity s) \/
               f64_finito (f64_operando a / f64_operando b)%f64 = true).
  { destruct b as [|q|q]; [contradiction| |];
      destruct a as [|p|p]; try (right; reflexivity);
        apply f64_quot_finito. }
  destruct Hq as [[s Hi]|Hf].
  - rewrite Hi. discriminate.
  - destruct (f64_operando a / f64_operando b)%f64; intros H;
      try discriminate; injection H as <-; exact Hf.
Qed.


(** * The locator and the quantile on binary64 *)

(** A float that is a number is compared with an int through the number it
    stands for. *)
Lemma f64_le_int_racional (x : f64) (z : Z) :
  f64_finito x = true ->
  f64_le_int x z = Qle_bool (f64_racional x) (inject_Z z).
Proof. destruct x; simpl; intros H; try discriminate; reflexivity. Qed.


Lemma py_getitem_map {A B : Type} (f : A -> B) (l : list A) (i : Z) :
  py_getitem (map f l) i
  = match py_getitem l i with
    | Ok a => Ok (f a)
    | Raise e => Raise e
    end.
Proof.
  unfold py_getitem. rewrite length_map.
  destruct ((_ <? 0) || (_ <=? _)); [reflexivity|].
  rewrite nth_error_map. now destruct (nth_error l _).
Qed.

(** On a position that is a number the scan over binary64 classes is the
    scan of the exact model at the number the position stands for: it only
    looks at the frequencies. *)
Lemma buscar_bucle_exacta (pos : f64) (resto : list Doble.Clase) (i Fi : Z) :
  f64_finito pos = true ->
  Doble.buscar_bucle pos i Fi resto
  = Untitled1.buscar_bucle (f64_racional pos) i Fi (map exacta resto).
Proof.
  intros Hf. revert i Fi; induction resto as [|c resto IH]; intros i Fi;
    simpl; [reflexivity|].
  rewrite (f64_le_int_racional pos _ Hf), IH. reflexivity.
Qed.

Lemma buscar_exacta (clases : list Doble.Clase) (pos : f64) :
  f64_finito pos = true ->
  Doble.buscar_clase_por_posicion clases pos
  = Untitled1.buscar_clase_por_posicion (map exacta clases) (f64_racional pos).
Proof.
  intros Hf.
  unfold Doble.buscar_clase_por_posicion, Untitled1.buscar_clase_por_posicion.
  rewrite (buscar_bucle_exacta pos clases 0 0 Hf).
  destruct (Untitled1.buscar_bucle _ 0 0 (map exacta clases)); [reflexivity|].
  rewrite py_getitem_map, length_map.
  now destruct (py_getitem clases (-1)).
Qed.

Lemma fi_exactas (clases : list Doble.Clase) :
  map fi (map exacta clases) = frecuencias clases.
Proof. unfold frecuencias. rewrite map_map. reflexivity. Qed.

Lemma total_exactas (clases : list Doble.Clase) :
  total_fi (map exacta clases) = Doble.total_fi clases.
Proof. unfold total_fi, Doble.total_fi. now rewrite map_map. Qed.


Lemma acumulada_antes_exactas (clases : list Doble.Clase) (i : nat) :
  acumulada_antes (map exacta clases) i = frecuencia_antes clases i.
Proof.
  unfold acumulada_antes, frecuencia_antes.
  now rewrite <- firstn_map, fi_exactas.
Qed.


Lemma nth_error_exactas (clases : list Doble.Clase) (i : nat) (c : Clase) :
  nth_error (map exacta clases) i = Some c ->
  exists c' : Doble.Clase, nth_error clases i = Some c' /\ c = exacta c'.
Proof.
  rewrite nth_error_map. destruct (nth_error clases i) as [c'|];
    [|discriminate].
  intros H. injection H as <-. eauto.
Qed.

Lemma doble_total_no_vacia (clases : list Doble.Clase) :
  Doble.total_fi clases <> 0 -> clases <> [].
Proof. intros H ->. now apply H. Qed.

(** On a non-empty sequence the locator answers with an index of the
    sequence and the cumulative frequency before it. *)
Lemma doble_buscar_ok (clases : list Doble.Clase) (pos : f64) :
  clases <> [] -> f64_finito pos = true ->
  exists (i : nat) (c : Doble.Clase),
    nth_error clases i = Some c /\
    Doble.buscar_clase_por_posicion clases pos
    = Ok (Z.of_nat i, frecuencia_antes clases i).
Proof.
  intros Hne Hf.
  destruct (buscar_ok (map exacta clases) (f64_racional pos))
    as (i & c & Hc & Hb).
  { destruct clases; [contradiction|discriminate]. }
  destruct (nth_error_exactas clases i c Hc) as (c' & Hc' & _).
  exists i, c'. split; [exact Hc'|].
  now rewrite (buscar_exacta clases pos Hf), Hb, acumulada_antes_exactas.
Qed.

(** Dividing by the float of a non-zero count does not raise. *)
Lemma f64_div_frecuencia (x frec : f64) (z : Z) :
  f64_de_int z = Ok frec -> z <> 0 -> f64_div x frec = Ok (x / frec)%f64.
Proof.
  intros Hz Hne. destruct (f64_de_int_no_cero z frec Hz Hne) as (m & e & ->).
  reflexivity.
Qed.

(** The quantile once the position is computed and the locator has
    answered. *)
Lemma doble_cuantil_desplegado (clases : list Doble.Clase) (k m : Z)
  (pos : f64) (i : nat) (c : Doble.Clase) :
  Doble.total_fi clases <> 0 ->
  f64_int_truediv (k * Doble.total_fi clases) m = Ok pos ->
  Doble.buscar_clase_por_posicion clases pos
  = Ok (Z.of_nat i, frecuencia_antes clases i) ->
  nth_error clases i = Some c ->
  Doble.cuantil_agrupado clases k m
  = (antes <- f64_de_int (frecuencia_antes clases i) ;;
     frec <- f64_de_int (Doble.fi c) ;;
     if Doble.fi c =? 0 then Raise ZeroDivisionError
     else Ok (Doble.minimo c
              + ((pos - antes) / frec) * (Doble.maximo c - Doble.minimo c))%f64).
Proof.
  intros Hn Hpos Hb Hc. unfold Doble.cuantil_agrupado.
  destruct (Z.eqb_spec (Doble.total_fi clases) 0) as [H0|_]; [contradiction|].
  rewrite Hpos. cbn [bind]. rewrite Hb. cbn [bind].
  rewrite (py_getitem_nat _ _ _ Hc). cbn [bind].
  unfold f64_sub_int, f64_div_int.
  destruct (f64_de_int (frecuencia_antes clases i)) as [antes|e]; cbn [bind];
    [|reflexivity].
  destruct (f64_de_int (Doble.fi c)) as [frec|e] eqn:Hfrec; cbn [bind];
    [|reflexivity].
  destruct (Z.eqb_spec (Doble.fi c) 0) as [H0|Hne].
  - rewrite H0 in Hfrec. injection Hfrec as <-. reflexivity.
  - rewrite (f64_div_frecuencia _ frec _ Hfrec Hne). reflexivity.
Qed.

(** ** C1 *)

(** C1, as the code has it.  With total frequency [n = 0] the quantile is the
    not-a-number sentinel.  With [n > 0] and [m > 0], let [pos] be the float
    that [k * n / m] gives and [c] the class the locator returns for [pos],
    with [Fi_before] the sum of the frequencies before [c]: whenever [c.fi]
    is not zero and [Fi_before] and [c.fi] are within the range of the
    floats, the quantile is
    [c.minimo + ((pos - Fi_before) / c.fi) * (c.maximo - c.minimo)], each
    operation rounded to binary64. *)
Theorem cuantil_agrupado_formula (clases : list Doble.Clase) (k m : Z) :
  (Doble.total_fi clases = 0 ->
   Doble.cuantil_agrupado clases k m = Ok f64_nan) /\
  (0 < Doble.total_fi clases -> 0 < m ->
   forall pos : f64,
     f64_int_truediv (k * Doble.total_fi clases) m = Ok pos ->
     exists (i : nat) (c : Doble.Clase),
       Doble.buscar_clase_por_posicion clases pos
       = Ok (Z.of_nat i, frecuencia_antes clases i) /\
       nth_error clases i = Some c /\
       forall antes frec : f64,
         f64_de_int (frecuencia_antes clases i) = Ok antes ->
         f64_de_int (Doble.fi c) = Ok frec ->
         Doble.fi c <> 0 ->
         Doble.cuantil_agrupado clases k m
         = Ok (Doble.minimo c
               + ((pos - antes) / frec)
                 * (Doble.maximo c - Doble.minimo c))%f64).
Proof.
  split.
  - intros H0. unfold Doble.cuantil_agrupado. now rewrite H0.
  - intros Hn Hm pos Hpos.
    assert (Hn0 : Doble.total_fi clases <> 0) by lia.
    destruct (doble_buscar_ok clases pos) as (i & c & Hc & Hb).
    { now apply doble_total_no_vacia. }
    { eapply f64_int_truediv_finito; eauto. }
    exists i, c. split; [exact Hb|]. split; [exact Hc|].
    intros antes frec Hantes Hfrec Hfi.
    rewrite (doble_cuantil_desplegado clases k m pos i c Hn0 Hpos Hb Hc).
    rewrite Hantes, Hfrec. cbn [bind].
    destruct (Z.eqb_spec (Doble.fi c) 0); [contradiction|reflexivity].
Qed.

Lemma cuantil_agrupado_formula_ejemplo :
  0 < Doble.total_fi tabla_ejemplo_doble /\
  0 < 4 /\
  f64_int_truediv (2 * Doble.total_fi tabla_ejemplo_doble) 4
  = Ok (f64_entero 10) /\
  exists (i : nat) (c : Doble.Clase),
    Doble.buscar_clase_por_posicion tabla_ejemplo_doble (f64_entero 10)
    = Ok (Z.of_nat i, frecuencia_antes tabla_ejemplo_doble i) /\
    nth_error tabla_ejemplo_doble i = Some c /\
    forall antes frec : f64,
      f64_de_int (frecuencia_antes tabla_ejemplo_doble i) = Ok antes ->
      f64_de_int (Doble.fi c) = Ok frec ->
      Doble.fi c <> 0 ->
      Doble.cuantil_agrupado tabla_ejemplo_doble 2 4
      = Ok (Doble.minimo c
            + ((f64_entero 10 - antes) / frec)
              * (Doble.maximo c - Doble.minimo c))%f64.
Proof.
  split; [reflexivity|]. split; [reflexivity|]. split; [reflexivity|].
  apply (proj2 (cuantil_agrupado_formula tabla_ejemplo_doble 2 4));
    reflexivity.
Defined.

(** C1 as stated fails in two ways.  A count beyond the range of the floats
    makes the division [k * n / m] raise [OverflowError]: the quantile [1/1]
    of one class with [2 ^ 1024] observations.  And an empty located class
    makes the interpolation raise [ZeroDivisionError]: the quantile [0/4] of
    a table whose first class is empty. *)
Lemma cuantil_agrupado_sin_valor :
  0 < Doble.total_fi tabla_desbordada /\
  Doble.cuantil_agrupado tabla_desbordada 1 1 = Raise OverflowError /\
  0 < Doble.total_fi tabla_primera_vacia /\
  Doble.cuantil_agrupado tabla_primera_vacia 0 4 = Raise ZeroDivisionError.
Proof. repeat split; vm_compute; reflexivity. Qed.

(** ** C9 *)

Lemma f64_de_int_error (z : Z) (e : py_error) :
  f64_de_int z = Raise e -> e = OverflowError.
Proof.
  unfold f64_de_int. destruct (f64_entero z); intros H; try discriminate.
  now injection H.
Qed.

(** C9, as the code has it.  With a positive total, when the position that
    [k * n / m] gives is above 0 and not above [n], the class the locator
    returns has a strictly positive frequency, and the quantile does not
    divide by zero: the only exception left to it is [OverflowError]. *)
Theorem clase_localizada_con_frecuencia (clases : list Doble.Clase)
  (k m : Z) (pos : f64) :
  0 < Doble.total_fi clases ->
  f64_int_truediv (k * Doble.total_fi clases) m = Ok pos ->
  f64_le_int pos 0 = false ->
  f64_le_int pos (Doble.total_fi clases) = true ->
  exists (i : nat) (c : Doble.Clase),
    Doble.buscar_clase_por_posicion clases pos
    = Ok (Z.of_nat i, frecuencia_antes clases i) /\
    nth_error clases i = Some c /\
    0 < Doble.fi c /\
    forall e : py_error,
      Doble.cuantil_agrupado clases k m = Raise e -> e = OverflowError.
Proof.
  intros Hn Hpos H0 Hle.
  pose proof (f64_int_truediv_finito _ _ _ Hpos) as Hf.
  rewrite (f64_le_int_racional pos _ Hf) in H0.
  rewrite (f64_le_int_racional pos _ Hf) in Hle.
  assert (Hgt : (0 < f64_racional pos)%Q).
  { apply Qnot_le_lt. intros H. apply Qle_bool_iff in H.
    change (inject_Z 0) with 0%Q in H0. congruence. }
  apply Qle_bool_iff in Hle.
  rewrite <- total_exactas, total_fi_suma in Hle.
  destruct (buscar_en_rango (map exacta clases) (f64_racional pos) Hgt Hle)
    as (i & c & Hc & Hb & _ & _ & _ & Hfi).
  destruct (nth_error_exactas clases i c Hc) as (c' & Hc' & ->).
  rewrite <- (buscar_exacta clases pos Hf), acumulada_antes_exactas in Hb.
  exists i, c'. split; [exact Hb|]. split; [exact Hc'|].
  split; [exact Hfi|].
  intros e He.
  rewrite (doble_cuantil_desplegado clases k m pos i c') in He;
    auto; try lia.
  destruct (f64_de_int (frecuencia_antes clases i)) as [antes|e1] eqn:H1;
    cbn [bind] in He.
  - destruct (f64_de_int (Doble.fi c')) as [frec|e2] eqn:H2; cbn [bind] in He.
    + simpl in Hfi. destruct (Z.eqb_spec (Doble.fi c') 0); [lia|discriminate].
    + injection He as <-. eapply f64_de_int_error; eauto.
  - injection He as <-. eapply f64_de_int_error; eauto.
Qed.

Lemma clase_localizada_con_frecuencia_ejemplo :
  0 < Doble.total_fi tabla_ejemplo_doble /\
  f64_int_truediv (3 * Doble.total_fi tabla_ejemplo_doble) 4
  = Ok (f64_entero 15) /\
  f64_le_int (f64_entero 15) 0 = false /\
  f64_le_int (f64_entero 15) (Doble.total_fi tabla_ejemplo_doble) = true /\
  exists (i : nat) (c : Doble.Clase),
    Doble.buscar_clase_por_posicion tabla_ejemplo_doble (f64_entero 15)
    = Ok (Z.of_nat i, frecuencia_antes tabla_ejemplo_doble i) /\
    nth_error tabla_ejemplo_doble i = Some c /\
    0 < Doble.fi c /\
    forall e : py_error,
      Doble.cuantil_agrupado tabla_ejemplo_doble 3 4 = Raise e ->
      e = OverflowError.
Proof.
  split; [reflexivity|]. split; [reflexivity|]. split; [reflexivity|].
  split; [reflexivity|].
  apply (clase_localizada_con_frecuencia tabla_ejemplo_doble 3 4
           (f64_entero 15)); reflexivity.
Defined.

(** C9 as stated fails when the position exceeds the total, and the last
    class is empty: the locator falls back to that class and the quantile
    divides by zero.  With [k = 5] and [m = 4] the position [6.25] exceeds
    the total 5.  With [k = m = 4] and a total of [2 ^ 53 + 3] the position
    is the float nearest to the total, [2 ^ 53 + 4]. *)
Lemma clase_localizada_vacia :
  Forall (fun c => 0 <= Doble.fi c) tabla_ultima_vacia_doble /\
  0 < Doble.total_fi tabla_ultima_vacia_doble /\
  f64_int_truediv (5 * Doble.total_fi tabla_ultima_vacia_doble) 4
  = Ok (f64_decimal 625 (-2)) /\
  Doble.buscar_clase_por_posicion tabla_ultima_vacia_doble
    (f64_decimal 625 (-2)) = Ok (1, 5) /\
  option_map Doble.fi (nth_error tabla_ultima_vacia_doble 1) = Some 0 /\
  Doble.cuantil_agrupado tabla_ultima_vacia_doble 5 4
  = Raise ZeroDivisionError /\
  Forall (fun c => 0 <= Doble.fi c) tabla_inexacta /\
  0 < Doble.total_fi tabla_inexacta /\
  f64_int_truediv (4 * Doble.total_fi tabla_inexacta) 4
  = Ok (f64_entero (2 ^ 53 + 4)) /\
  Doble.buscar_clase_por_posicion tabla_inexacta (f64_entero (2 ^ 53 + 4))
  = Ok (1, 2 ^ 53 + 3) /\
  option_map Doble.fi (nth_error tabla_inexacta 1) = Some 0 /\
  Doble.cuantil_agrupado tabla_inexacta 4 4 = Raise ZeroDivisionError.
Proof.
  split; [repeat constructor; discriminate|].
  split; [reflexivity|]. split; [reflexivity|]. split; [reflexivity|].
  split; [reflexivity|]. split; [reflexivity|].
  split; [repeat constructor; discriminate|].
  repeat split; vm_compute; reflexivity.
Qed.

(** ** C7 *)





(** ** C6 *)




(** ** The exceptions of the quantile *)

Lemma f64_int_truediv_error (a b : Z) (e : py_error) :
  f64_int_truediv a b = Raise e ->
  (e = ZeroDivisionError /\ b = 0) \/ e = OverflowError.
Proof.
  unfold f64_int_truediv. destruct (Z.eqb_spec b 0) as [->|Hb].
  - intros H. injection H as <-. now left.
  - destruct (f64_operando a / f64_operando b)%f64; intros H;
      try discriminate.
    injection H as <-. now right.
Qed.

(** X2.  The quantile raises only for a table with observations, and only
    [ZeroDivisionError] or [OverflowError]; it raises [ZeroDivisionError]
    only when [m] is 0 or the class the locator returns is empty.  The index
    the locator returns is always valid, so indexing never fails. *)
Theorem cuantil_agrupado_excepciones (clases : list Doble.Clase) (k m : Z)
  (e : py_error) :
  Doble.cuantil_agrupado clases k m = Raise e ->
  Doble.total_fi clases <> 0 /\
  (e = ZeroDivisionError \/ e = OverflowError) /\
  (e = ZeroDivisionError ->
   m = 0 \/
   exists (pos : f64) (i : nat) (c : Doble.Clase),
     f64_int_truediv (k * Doble.total_fi clases) m = Ok pos /\
     Doble.buscar_clase_por_posicion clases pos
     = Ok (Z.of_nat i, frecuencia_antes clases i) /\
     nth_error clases i = Some c /\ Doble.fi c = 0).
Proof.
  intros He.
  destruct (Z.eq_dec (Doble.total_fi clases) 0) as [H0|Hn].
  { unfold Doble.cuantil_agrupado in He. rewrite H0 in He. discriminate. }
  split; [exact Hn|].
  destruct (f64_int_truediv (k * Doble.total_fi clases) m) as [pos|e0] eqn:Hpos.
  - destruct (doble_buscar_ok clases pos) as (i & c & Hc & Hb).
    { now apply doble_total_no_vacia. }
    { eapply f64_int_truediv_finito; eauto. }
    rewrite (doble_cuantil_desplegado clases k m pos i c Hn Hpos Hb Hc) in He.
    destruct (f64_de_int (frecuencia_antes clases i)) as [antes|e1] eqn:H1;
      cbn [bind] in He.
    + destruct (f64_de_int (Doble.fi c)) as [frec|e2] eqn:H2;
        cbn [bind] in He.
      * destruct (Z.eqb_spec (Doble.fi c) 0) as [Hfi|Hfi]; [|discriminate].
        injection He as <-. split; [now left|].
        intros _. right. exists pos, i, c. auto.
      * injection He as <-. rewrite (f64_de_int_error _ _ H2).
        split; [now right|discriminate].
    + injection He as <-. rewrite (f64_de_int_error _ _ H1).
      split; [now right|discriminate].
  - unfold Doble.cuantil_agrupado in He.
    destruct (Z.eqb_spec (Doble.total_fi clases) 0); [contradiction|].
    rewrite Hpos in He. cbn [bind] in He. injection He as <-.
    destruct (f64_int_truediv_error _ _ _ Hpos) as [[-> Hm]| ->].
    + split; [now left|]. intros _. now left.
    + split; [now right|discriminate].
Qed.

Lemma cuantil_agrupado_excepciones_ejemplo :
  Doble.cuantil_agrupado tabla_ultima_vacia_doble 5 4
  = Raise ZeroDivisionError /\
  Doble.total_fi tabla_ultima_vacia_doble <> 0 /\
  (ZeroDivisionError = ZeroDivisionError \/ ZeroDivisionError = OverflowError) /\
  (ZeroDivisionError = ZeroDivisionError ->
   4 = 0 \/
   exists (pos : f64) (i : nat) (c : Doble.Clase),
     f64_int_truediv (5 * Doble.total_fi tabla_ultima_vacia_doble) 4 = Ok pos /\
     Doble.buscar_clase_por_posicion tabla_ultima_vacia_doble pos
     = Ok (Z.of_nat i, frecuencia_antes tabla_ultima_vacia_doble i) /\
     nth_error tabla_ultima_vacia_doble i = Some c /\ Doble.fi c = 0).
Proof.
  split; [reflexivity|].
  apply (cuantil_agrupado_excepciones tabla_ultima_vacia_doble 5 4
           ZeroDivisionError).
  reflexivity.
Defined.

(** * The mean and the dispersion summary on binary64 *)

Lemma doble_total_suma (clases : list Doble.Clase) :
  Doble.total_fi clases = suma (frecuencias clases).
Proof. apply py_sum_Z_suma. Qed.

(** The first and the last element of a non-empty list, as indexing and as
    positions give them. *)
Lemma extremos {A : Type} (l : list A) :
  l <> [] ->
  exists primera ultima : A,
    py_getitem l 0 = Ok primera /\
    py_getitem l (-1) = Ok ultima /\
    List.hd_error l = Some primera /\
    nth_error l (List.length l - 1) = Some ultima.
Proof.
  intros Hne. destruct (no_vacia_ultimo l Hne) as (ini & ult & Hult).
  destruct l as [|pri resto]; [contradiction|].
  exists pri, ult. split; [apply py_getitem_primero|]. split.
  - rewrite Hult. apply py_getitem_ultimo.
  - split; [reflexivity|].
    rewrite Hult, length_app. simpl. rewrite nth_error_app2 by lia.
    replace (List.length ini + 1 - 1 - List.length ini)%nat with 0%nat by lia.
    reflexivity.
Qed.

Section ResumenDispersion.

Variable py_sum : list f64 -> f64.
Variable potencia2 : f64 -> result f64.

(** The mean that the code computes is the expected one. *)
Lemma media_agrupada_esperada (clases : list Doble.Clase) :
  Doble.total_fi clases <> 0 ->
  Doble.media_agrupada py_sum clases = media_esperada py_sum clases.
Proof.
  intros Hn. unfold Doble.media_agrupada, media_esperada.
  destruct (Z.eqb_spec (Doble.total_fi clases) 0) as [H0|_]; [contradiction|].
  change (fun c => f64_mul_int (Doble.marca c) (Doble.fi c))
    with (fun c => f <- f64_de_int (Doble.fi c) ;;
                   Ok (punto_medio c * f)%f64).
  destruct (para_cada _ clases) as [productos|e]; cbn [bind]; [|reflexivity].
  unfold f64_div_int. rewrite <- doble_total_suma.
  destruct (f64_de_int (Doble.total_fi clases)) as [n|e] eqn:Hconv;
    cbn [bind]; [|reflexivity].
  apply (f64_div_frecuencia _ _ _ Hconv Hn).
Qed.

(** The variance that the code computes is the expected one. *)
Lemma varianza_agrupada_esperada (clases : list Doble.Clase) (xbar : f64) :
  (terminos <- para_cada (fun c => y <- potencia2 (Doble.marca c - xbar)%f64 ;;
                                   int_mul_f64 (Doble.fi c) y) clases ;;
   if 1 <? Doble.total_fi clases
   then f64_div_int (py_sum terminos) (Doble.total_fi clases - 1)
   else Ok (S754_zero false))
  = varianza_esperada py_sum potencia2 clases xbar.
Proof.
  unfold varianza_esperada, suma_cuadrados_esperada.
  rewrite <- doble_total_suma.
  change (fun c => y <- potencia2 (Doble.marca c - xbar)%f64 ;;
                   int_mul_f64 (Doble.fi c) y)
    with (fun c => y <- potencia2 (punto_medio c - xbar)%f64 ;;
                   f <- f64_de_int (Doble.fi c) ;;
                   Ok (f * y)%f64).
  destruct (para_cada _ clases) as [terminos|e]; cbn [bind]; [|reflexivity].
  destruct (Z.ltb_spec 1 (Doble.total_fi clases)) as [H1|H1]; [|reflexivity].
  unfold f64_div_int.
  destruct (f64_de_int (Doble.total_fi clases - 1)) as [d|e] eqn:Hconv;
    cbn [bind]; [|reflexivity].
  apply (f64_div_frecuencia _ _ _ Hconv). lia.
Qed.

(** The summary, once the tests on [n] are passed, in terms of the expected
    mean and variance. *)
Lemma dispersion_agrupada_desplegada (clases : list Doble.Clase) :
  Doble.total_fi clases <> 0 ->
  Doble.dispersion_agrupada py_sum potencia2 clases
  = (xbar <- media_esperada py_sum clases ;;
     var <- varianza_esperada py_sum potencia2 clases xbar ;;
     sd <- f64_math_sqrt var ;;
     q1 <- Doble.cuantil_agrupado clases 1 4 ;;
     q3 <- Doble.cuantil_agrupado clases 3 4 ;;
     ultima <- py_getitem clases (-1) ;;
     primera <- py_getitem clases 0 ;;
     Ok (Doble.mkDispersion
           (Doble.maximo ultima - Doble.minimo primera)%f64 var sd
           (q3 - q1)%f64
           (if f64_eq_int xbar 0 then f64_inf
            else (sd / xbar * f64_entero 100)%f64))).
Proof.
  intros Hn. unfold Doble.dispersion_agrupada.
  destruct (Z.eqb_spec (Doble.total_fi clases) 0) as [H0|_]; [contradiction|].
  rewrite (media_agrupada_esperada clases Hn).
  destruct (media_esperada py_sum clases) as [xbar|e]; cbn [bind];
    [|reflexivity].
  pose proof (varianza_agrupada_esperada clases xbar) as Hvar.
  destruct (para_cada _ clases) as [terminos|e]; cbn [bind] in Hvar |- *.
  - rewrite Hvar.
    destruct (varianza_esperada py_sum potencia2 clases xbar) as [var|e];
      cbn [bind]; [|reflexivity].
    destruct (f64_math_sqrt var) as [sd|e]; cbn [bind]; [|reflexivity].
    destruct (Doble.cuantil_agrupado clases 1 4) as [q1|e]; cbn [bind];
      [|reflexivity].
    destruct (Doble.cuantil_agrupado clases 3 4) as [q3|e]; cbn [bind];
      [|reflexivity].
    destruct (py_getitem clases (-1)) as [ultima|e]; cbn [bind];
      [|reflexivity].
    destruct (py_getitem clases 0) as [primera|e]; cbn [bind];
      [|reflexivity].
    unfold f64_ne_int, f64_div.
    destruct xbar as [s|s| |s mx ex]; cbn [f64_eq_int f64_es_cero negb bind];
      try reflexivity.
    + now destruct (Qeq_bool _ _).
  - now rewrite <- Hvar.
Qed.

(** C5, as the code has it.  When [n = 0] every field of the summary, the
    range included, is the not-a-number sentinel.  When [n] is not zero and
    the summary [d] is returned: the mean
    [sum(midpoint_i * fi_i) / n] has a value; the variance of [d] is
    [sum(fi_i * (midpoint_i - mean)^2) / (n - 1)] for [n > 1] and exactly
    [0.0] for [n = 1]; the standard deviation is the square root of the
    variance; the range is [last.maximo - first.minimo]; and the coefficient
    of variation is [sd / mean * 100], or positive infinity when the mean
    is zero.  And the summary is returned whenever the mean, the variance,
    its square root and the first and third quartiles have values. *)
Theorem dispersion_agrupada_campos (clases : list Doble.Clase) :
  (Doble.total_fi clases = 0 ->
   Doble.dispersion_agrupada py_sum potencia2 clases
   = Ok (Doble.mkDispersion f64_nan f64_nan f64_nan f64_nan f64_nan)) /\
  (Doble.total_fi clases <> 0 ->
   forall d : Doble.Dispersion,
     Doble.dispersion_agrupada py_sum potencia2 clases = Ok d ->
     exists (mean : f64) (primera ultima : Doble.Clase),
       media_esperada py_sum clases = Ok mean /\
       List.hd_error clases = Some primera /\
       nth_error clases (List.length clases - 1) = Some ultima /\
       varianza_esperada py_sum potencia2 clases mean = Ok (Doble.d_var d) /\
       (Doble.total_fi clases = 1 -> Doble.d_var d = S754_zero false) /\
       Doble.d_sd d = f64_raiz (Doble.d_var d) /\
       Doble.d_rango d
       = (Doble.maximo ultima - Doble.minimo primera)%f64 /\
       Doble.d_CV d
       = if f64_eq_int mean 0 then f64_inf
         else (Doble.d_sd d / mean * f64_entero 100)%f64) /\
  (Doble.total_fi clases <> 0 ->
   forall mean var sd q1 q3 : f64,
     media_esperada py_sum clases = Ok mean ->
     varianza_esperada py_sum potencia2 clases mean = Ok var ->
     f64_math_sqrt var = Ok sd ->
     Doble.cuantil_agrupado clases 1 4 = Ok q1 ->
     Doble.cuantil_agrupado clases 3 4 = Ok q3 ->
     exists d : Doble.Dispersion,
       Doble.dispersion_agrupada py_sum potencia2 clases = Ok d /\
       Doble.d_var d = var /\ Doble.d_sd d = sd /\
       Doble.d_IQR d = (q3 - q1)%f64).
Proof.
  split; [|split].
  - intros H0. unfold Doble.dispersion_agrupada. now rewrite H0.
  - intros Hn d Hd.
    rewrite (dispersion_agrupada_desplegada clases Hn) in Hd.
    destruct (extremos clases) as (pri & ult & Hpri & Hult & Hhd & Hlast);
      [now apply doble_total_no_vacia|].
    destruct (media_esperada py_sum clases) as [mean|e]; cbn [bind] in Hd;
      [|discriminate].
    destruct (varianza_esperada py_sum potencia2 clases mean) as [var|e]
      eqn:Hvar; cbn [bind] in Hd; [|discriminate].
    destruct (f64_math_sqrt var) as [sd|e] eqn:Hsd; cbn [bind] in Hd;
      [|discriminate].
    destruct (Doble.cuantil_agrupado clases 1 4) as [q1|e]; cbn [bind] in Hd;
      [|discriminate].
    destruct (Doble.cuantil_agrupado clases 3 4) as [q3|e]; cbn [bind] in Hd;
      [|discriminate].
    rewrite Hult, Hpri in Hd. cbn [bind] in Hd. injection Hd as <-.
    cbn [Doble.d_var Doble.d_sd Doble.d_rango Doble.d_CV].
    exists mean, pri, ult.
    split; [reflexivity|]. split; [exact Hhd|]. split; [exact Hlast|].
    split; [exact Hvar|]. split.
    { intros H1. unfold varianza_esperada in Hvar.
      rewrite <- doble_total_suma, H1 in Hvar.
      destruct (suma_cuadrados_esperada _ _ _ _); cbn [bind] in Hvar;
        [|discriminate].
      simpl in Hvar. now injection Hvar. }
    split.
    { unfold f64_math_sqrt in Hsd.
      destruct (f64_ltb var (S754_zero false)); [discriminate|].
      now injection Hsd. }
    split; reflexivity.
  - intros Hn mean var sd q1 q3 Hmean Hvar Hsd Hq1 Hq3.
    rewrite (dispersion_agrupada_desplegada clases Hn).
    destruct (extremos clases) as (pri & ult & Hpri & Hult & _ & _);
      [now apply doble_total_no_vacia|].
    rewrite Hmean. cbn [bind]. rewrite Hvar. cbn [bind].
    rewrite Hsd. cbn [bind]. rewrite Hq1, Hq3. cbn [bind].
    rewrite Hult, Hpri. cbn [bind].
    eexists. split; [reflexivity|]. repeat split.
Qed.

End ResumenDispersion.

Lemma dispersion_agrupada_campos_ejemplo :
  Doble.total_fi tabla_ejemplo_doble <> 0 /\
  exists d : Doble.Dispersion,
    Doble.dispersion_agrupada BuiltinsDoble.py_sum BuiltinsDoble.potencia2
      tabla_ejemplo_doble = Ok d /\
    exists (mean : f64) (primera ultima : Doble.Clase),
      media_esperada BuiltinsDoble.py_sum tabla_ejemplo_doble = Ok mean /\
      List.hd_error tabla_ejemplo_doble = Some primera /\
      nth_error tabla_ejemplo_doble (List.length tabla_ejemplo_doble - 1)
      = Some ultima /\
      varianza_esperada BuiltinsDoble.py_sum BuiltinsDoble.potencia2
        tabla_ejemplo_doble mean = Ok (Doble.d_var d) /\
      (Doble.total_fi tabla_ejemplo_doble = 1 ->
       Doble.d_var d = S754_zero false) /\
      Doble.d_sd d = f64_raiz (Doble.d_var d) /\
      Doble.d_rango d = (Doble.maximo ultima - Doble.minimo primera)%f64 /\
      Doble.d_CV d
      = if f64_eq_int mean 0 then f64_inf
        else (Doble.d_sd d / mean * f64_entero 100)%f64.
Proof.
  assert (Hn : Doble.total_fi tabla_ejemplo_doble <> 0) by discriminate.
  split; [exact Hn|].
  eexists. split; [vm_compute; reflexivity|].
  apply (proj1 (proj2 (dispersion_agrupada_campos BuiltinsDoble.py_sum
                         BuiltinsDoble.potencia2 tabla_ejemplo_doble)) Hn).
  vm_compute. reflexivity.
Defined.

(** C5 as stated fails in two ways.  With no observation the range is the
    not-a-number sentinel: for the single class [0, 10] with frequency 0 it
    is not [10 - 0].  And a count beyond the range of the floats leaves the
    summary without a value: for one class with [2 ^ 1024] observations the
    mean raises [OverflowError]. *)
Lemma dispersion_sin_datos :
  List.hd_error tabla_sin_datos = Some (clase_entera 0 10 0) /\
  nth_error tabla_sin_datos (List.length tabla_sin_datos - 1)
  = Some (clase_entera 0 10 0) /\
  (exists d : Doble.Dispersion,
      Doble.dispersion_agrupada BuiltinsDoble.py_sum BuiltinsDoble.potencia2
        tabla_sin_datos = Ok d /\
      Doble.d_rango d = f64_nan /\
      (f64_entero 10 - f64_entero 0)%f64 = f64_entero 10 /\
      Doble.d_rango d <> f64_entero 10) /\
  forall (py_sum : list f64 -> f64) (potencia2 : f64 -> result f64),
    Doble.dispersion_agrupada py_sum potencia2 tabla_desbordada
    = Raise OverflowError.
Proof.
  split; [reflexivity|]. split; [reflexivity|]. split.
  - eexists. split; [reflexivity|]. split; [reflexivity|].
    split; [reflexivity|]. discriminate.
  - intros py_sum potencia2. vm_compute. reflexivity.
Qed.

(** ** The mean *)

Lemma para_cada_conversion_error {A : Type} (g : A -> Z) (h : A -> f64 -> f64)
  (l : list A) (e : py_error) :
  para_cada (fun a => f <- f64_de_int (g a) ;; Ok (h a f)) l = Raise e ->
  e = OverflowError.
Proof.
  induction l as [|a l IH]; simpl; [discriminate|].
  destruct (f64_de_int (g a)) as [f|e1] eqn:Hf; cbn [bind].
  - destruct (para_cada _ l) as [bs|e2]; cbn [bind]; [discriminate|].
    intros H. injection H as <-. now apply IH.
  - intros H. injection H as <-. eapply f64_de_int_error; eauto.
Qed.

Section Media.

Variable py_sum : list f64 -> f64.

(** X22.  Without observations the mean is the not-a-number sentinel;
    otherwise it is [sum(midpoint_i * fi_i) / n], every operation in
    binary64, and the only exception it can raise is [OverflowError], for a
    count beyond the range of the floats. *)
Theorem media_agrupada_formula (clases : list Doble.Clase) :
  (Doble.total_fi clases = 0 ->
   Doble.media_agrupada py_sum clases = Ok f64_nan) /\
  (Doble.total_fi clases <> 0 ->
   Doble.media_agrupada py_sum clases = media_esperada py_sum clases) /\
  (forall e : py_error,
     Doble.media_agrupada py_sum clases = Raise e -> e = OverflowError).
Proof.
  split; [|split].
  - intros H0. unfold Doble.media_agrupada. now rewrite H0.
  - apply media_agrupada_esperada.
  - intros e He.
    destruct (Z.eq_dec (Doble.total_fi clases) 0) as [H0|Hn].
    { unfold Doble.media_agrupada in He. rewrite H0 in He. discriminate. }
    rewrite (media_agrupada_esperada py_sum clases Hn) in He.
    unfold media_esperada in He.
    destruct (para_cada _ clases) as [productos|e1] eqn:Hp; cbn [bind] in He.
    + destruct (f64_de_int (suma (frecuencias clases))) as [n|e2] eqn:Hc;
        cbn [bind] in He; [discriminate|].
      injection He as <-. eapply f64_de_int_error; eauto.
    + injection He as <-.
      exact (para_cada_conversion_error Doble.fi
               (fun c f => (punto_medio c * f)%f64) clases e1 Hp).
Qed.

End Media.

(** * Worked examples on binary64 *)

(** The mean of the sample table is 31.75 and its median 31.875. *)
Example tabla_ejemplo_media :
  Doble.media_agrupada BuiltinsDoble.py_sum tabla_ejemplo_doble
  = Ok (f64_decimal 3175 (-2)) /\
  Doble.mediana_agrupada tabla_ejemplo_doble = Ok (f64_decimal 31875 (-3)).
Proof. split; reflexivity. Qed.

(** On the empty sequence the mean, the median and the summary are
    undefined. *)
Example sin_observaciones :
  Doble.media_agrupada BuiltinsDoble.py_sum [] = Ok f64_nan /\
  Doble.mediana_agrupada [] = Ok f64_nan /\
  Doble.dispersion_agrupada BuiltinsDoble.py_sum BuiltinsDoble.potencia2 []
  = Ok (Doble.mkDispersion f64_nan f64_nan f64_nan f64_nan f64_nan).
Proof. repeat split; reflexivity. Qed.

(** A single class [10, 20] with frequency 7: the variance and the standard
    deviation are [0.0], the range is 10, and the quartiles are 12.5 and
    17.5. *)
Example una_clase_doble :
  Doble.dispersion_agrupada BuiltinsDoble.py_sum BuiltinsDoble.potencia2
    [clase_entera 10 20 7]
  = Ok (Doble.mkDispersion (f64_entero 10) (S754_zero false)
          (S754_zero false) (f64_entero 5) (S754_zero false)).
Proof. vm_compute. reflexivity. Qed.

(** Rounding: [0.9 - 0.3] is [0.6000000000000001], [1 / 3] is
    [0.3333333333333333], and [2 ^ 53 + 3] becomes the float [2 ^ 53 + 4].
    Overflow: the largest integer that converts is
    [2 ^ 1024 - 2 ^ 970 - 1]. *)
Example redondeos :
  (f64_decimal 9 (-1) - f64_decimal 3 (-1))%f64
  = f64_decimal 6000000000000001 (-16) /\
  f64_int_truediv 1 3 = Ok (f64_decimal 3333333333333333 (-16)) /\
  f64_de_int (2 ^ 53 + 3) = Ok (f64_entero (2 ^ 53 + 4)) /\
  f64_racional (f64_entero (2 ^ 53 + 3)) == inject_Z (2 ^ 53 + 4) /\
  f64_de_int (2 ^ 1024 - 2 ^ 970) = Raise OverflowError /\
  f64_finito (f64_entero (2 ^ 1024 - 2 ^ 970 - 1)) = true /\
  f64_int_truediv (2 ^ 1024) 1 = Raise OverflowError /\
  f64_int_truediv 1 0 = Raise ZeroDivisionError.
Proof. repeat split; vm_compute; reflexivity. Qed.

(** ** Agreement with the kernel's floats

    The operations above are the ones that specify the kernel's primitive
    binary64 floats; on these inputs the primitive operations, which run on
    the machine, give the same values. *)
Module Nucleo.

Import PrimFloat FloatOps.

Example resta_y_suma :
  Prim2SF (3 / 10 + 1 * (9 / 10 - 3 / 10))%float
  = (f64_decimal 3 (-1)
     + f64_entero 1 * (f64_decimal 9 (-1) - f64_decimal 3 (-1)))%f64.
Proof. vm_compute. reflexivity. Qed.

Example cociente_y_producto :
  Prim2SF ((25 - 15) / 8 * (35 - 30))%float
  = ((f64_entero 25 - f64_entero 15) / f64_entero 8
     * (f64_entero 35 - f64_entero 30))%f64.
Proof. vm_compute. reflexivity. Qed.

Example raiz_cuadrada :
  Prim2SF (sqrt (2 / 10))%float = f64_raiz (f64_decimal 2 (-1)).
Proof. vm_compute. reflexivity. Qed.

Example conversion_de_enteros :
  Prim2SF (of_uint63 (Uint63Axioms.of_Z (2 ^ 53 + 3))) = f64_entero (2 ^ 53 + 3).
Proof. vm_compute. reflexivity. Qed.

End Nucleo.
